(** * Contact constraints of the IPC toolkit: barrier potentials and the
      constraint-set container

    A shallow embedding of [src/collision_constraint.cpp] (the barrier
    adapter, the five constraint variants and the [Constraints] container),
    together with the three smooth friction mollifier functions whose
    closed forms are documented in
    [python/src/friction/smooth_friction_mollifier.cpp].

    - C++ [double] is the kernel's IEEE-754 binary64 type [float]; no
      algebraic law of the reals is used anywhere on it.
    - C++ [long] and [size_t] are integers in [Z]; every [size_t] operation
      is written with its reduction modulo [2^64].
    - [std::vector<T>] is [list T]; Eigen's dense vectors and matrices are
      lists (of rows) of doubles.
    - Functions of the toolkit that live in other translation units
      (barrier, primitive distances, mollifier, PSD projection) are the
      fields of a record of collaborators that every operation receives;
      the record also carries the build flag [NDEBUG], which decides
      whether an [assert] is checked. *)

From Stdlib Require Import ZArith List Bool Lia String.
From Stdlib Require Import QArith Qabs Lqa.
From Stdlib Require Import Floats.PrimFloat.
From Stdlib Require Import Numbers.Cyclic.Int63.Uint63.
Import ListNotations.

Local Open Scope Z_scope.

(* ================================================================== *)
(** ** Machine types and failure *)

Module Cxx.

Definition double : Set := float.
(** [long] on LP64: a value in [-2^63, 2^63). *)
Definition long : Set := Z.
(** [size_t]: a value in [0, 2^64). *)
Definition size_t : Set := Z.

Definition size_modulus : Z := 2 ^ 64.

Definition is_size_t (z : Z) : Prop := 0 <= z < size_modulus.
Definition is_long (z : Z) : Prop := - 2 ^ 63 <= z < 2 ^ 63.

(** Integral conversion to [size_t], and unsigned addition and
    subtraction. *)
Definition to_size_t (z : Z) : size_t := z mod size_modulus.
Definition size_add (a b : size_t) : size_t := (a + b) mod size_modulus.
Definition size_sub (a b : size_t) : size_t := (a - b) mod size_modulus.

(** Conversion of a [long] to [double] (round to nearest).  The
    magnitude of a [long] is at most [2^63]; below [2^63] it is a 63-bit
    unsigned integer, and [2^63] itself is twice [2^62]. *)
Definition magnitude_to_double (m : Z) : double :=
  if m <? 2 ^ 63
  then PrimFloat.of_uint63 (Uint63.of_Z m)
  else PrimFloat.mul 2%float (PrimFloat.of_uint63 (Uint63.of_Z (m / 2))).

Definition long_to_double (z : long) : double :=
  if z <? 0
  then PrimFloat.opp (magnitude_to_double (- z))
  else magnitude_to_double z.

(** [std::vector<T>::size()] and unchecked [operator[]]. *)
Definition vector_size {A : Type} (v : list A) : size_t :=
  Z.of_nat (List.length v).
Definition vector_at {A : Type} (v : list A) (i : size_t) : option A :=
  nth_error v (Z.to_nat i).

(** The two ways a call of this translation unit can fail to return: a
    thrown [std::out_of_range], or a failed [assert]. *)
Inductive failure : Set :=
  | out_of_range (what : string)
  | assertion_failed (expr : string).

Inductive result (A : Type) : Type :=
  | Ok (a : A)
  | Fail (f : failure).
Arguments Ok {A} a.
Arguments Fail {A} f.

Definition bind {A B : Type} (r : result A) (k : A -> result B) : result B :=
  match r with
  | Ok a => k a
  | Fail f => Fail f
  end.

(** [assert(cond)] in a translation unit compiled with ([ndebug] true) or
    without ([ndebug] false) the macro [NDEBUG]: with it the assertion is
    a no-op, without it a false condition stops the call. *)
Definition assert (ndebug : bool) (cond : bool) (expr : string)
  : result unit :=
  if ndebug then Ok tt
  else if cond then Ok tt else Fail (assertion_failed expr).

End Cxx.
Import Cxx.

Notation "x <- r ;; k" := (Cxx.bind r (fun x => k))
  (at level 61, r at next level, right associativity).

(** Arithmetic modulo [2^64], by linear reasoning on quotients and
    remainders. *)
Ltac size_arith :=
  unfold size_add, size_sub, to_size_t, is_size_t, size_modulus in *;
  Z.div_mod_to_equations; lia.

(* ================================================================== *)
(** ** Eigen dense vectors and matrices *)

Module Eigen.

Local Open Scope float_scope.

(** [VectorMax3d] ... [VectorMax12d], and a row of [MatrixXd]. *)
Definition Vector : Set := list double.
(** [MatrixMax3d] ... [MatrixMax12d]: the list of the rows. *)
Definition Matrix : Set := list (list double).
Definition MatrixXd : Set := list (list double).
Definition MatrixXi : Set := list (list Z).

(** [V.row(i)] and [E(i, j)].  Outside the matrix the source has
    undefined behaviour; the embedding returns the empty row and 0. *)
Definition row (V : MatrixXd) (i : long) : Vector :=
  if (i <? 0)%Z then [] else nth (Z.to_nat i) V [].
Definition coeff (E : MatrixXi) (i j : long) : long :=
  if ((i <? 0) || (j <? 0))%Z%bool then 0%Z
  else nth (Z.to_nat j) (nth (Z.to_nat i) E []) 0%Z.
Arguments row V i%_Z_scope.
Arguments coeff E (i j)%_Z_scope.

Fixpoint zip_with {A B C : Type} (f : A -> B -> C)
           (u : list A) (v : list B) : list C :=
  match u, v with
  | a :: u', b :: v' => f a b :: zip_with f u' v'
  | _, _ => []
  end.

(** [s * v] and [v * s]. *)
Definition scal_vec (s : double) (v : Vector) : Vector :=
  map (fun x => s * x) v.
Definition vec_scal (v : Vector) (s : double) : Vector :=
  map (fun x => x * s) v.
(** [u + v]. *)
Definition vec_add (u v : Vector) : Vector := zip_with PrimFloat.add u v.

(** [s * M], [M * s] and [M + N]. *)
Definition scal_mat (s : double) (M : Matrix) : Matrix :=
  map (scal_vec s) M.
Definition mat_scal (M : Matrix) (s : double) : Matrix :=
  map (fun r => vec_scal r s) M.
Definition mat_add (M N : Matrix) : Matrix := zip_with vec_add M N.

(** [u * v.transpose()]. *)
Definition outer (u v : Vector) : Matrix :=
  map (fun ui => map (fun vj => ui * vj) v) u.

End Eigen.
Import Eigen.

(* ================================================================== *)
(** ** Collaborators *)

(** Modelled from the spec: the distance-type enumerations are declared in
    headers that are not part of the sources.  The enumerators name the
    sub-case of the closest-point geometry; [P_E] and [P_T] are the two the
    constraint code passes explicitly, and the edge cases of the
    point-triangle type carry the prefix [P_TE] to keep them apart from
    the point-edge ones. *)
Inductive PointEdgeDistanceType : Set :=
| P_E0 | P_E1 | P_E.

Inductive PointTriangleDistanceType : Set :=
| P_T0 | P_T1 | P_T2 | P_TE0 | P_TE1 | P_TE2 | P_T.

Inductive EdgeEdgeDistanceType : Set :=
| EA0_EB0 | EA0_EB1 | EA1_EB0 | EA1_EB1
| EA_EB0 | EA_EB1 | EA0_EB | EA1_EB | EA_EB.

(** The functions the constraint code calls in other translation units,
    and the build configuration it is compiled with.  An output parameter
    of the C++ signature is the returned value here. *)
Record Collaborators : Type := {
  (** whether [NDEBUG] is defined, which turns [assert] into a no-op *)
  NDEBUG : bool;

  barrier : double -> double -> double;
  barrier_gradient : double -> double -> double;
  barrier_hessian : double -> double -> double;

  point_point_distance : Vector -> Vector -> double;
  point_point_distance_gradient : Vector -> Vector -> Vector;
  point_point_distance_hessian : Vector -> Vector -> Matrix;

  point_edge_distance :
    Vector -> Vector -> Vector -> PointEdgeDistanceType -> double;
  point_edge_distance_gradient :
    Vector -> Vector -> Vector -> PointEdgeDistanceType -> Vector;
  point_edge_distance_hessian :
    Vector -> Vector -> Vector -> PointEdgeDistanceType -> Matrix;

  point_triangle_distance :
    Vector -> Vector -> Vector -> Vector ->
    PointTriangleDistanceType -> double;
  point_triangle_distance_gradient :
    Vector -> Vector -> Vector -> Vector ->
    PointTriangleDistanceType -> Vector;
  point_triangle_distance_hessian :
    Vector -> Vector -> Vector -> Vector ->
    PointTriangleDistanceType -> Matrix;

  edge_edge_distance_type :
    Vector -> Vector -> Vector -> Vector -> EdgeEdgeDistanceType;
  (** the four-argument overload, which takes no distance type *)
  edge_edge_distance_auto : Vector -> Vector -> Vector -> Vector -> double;
  edge_edge_distance :
    Vector -> Vector -> Vector -> Vector -> EdgeEdgeDistanceType -> double;
  edge_edge_distance_gradient :
    Vector -> Vector -> Vector -> Vector -> EdgeEdgeDistanceType -> Vector;
  edge_edge_distance_hessian :
    Vector -> Vector -> Vector -> Vector -> EdgeEdgeDistanceType -> Matrix;

  edge_edge_mollifier :
    Vector -> Vector -> Vector -> Vector -> double -> double;
  edge_edge_mollifier_gradient :
    Vector -> Vector -> Vector -> Vector -> double -> Vector;
  edge_edge_mollifier_hessian :
    Vector -> Vector -> Vector -> Vector -> double -> Matrix;

  point_plane_distance : Vector -> Vector -> Vector -> double;
  point_plane_distance_gradient : Vector -> Vector -> Vector -> Vector;
  point_plane_distance_hessian : Vector -> Vector -> Vector -> Matrix;

  project_to_psd : Matrix -> Matrix
}.

(* ================================================================== *)
(** ** [CollisionConstraint]: the shared barrier adapter *)

Module CollisionConstraint.
Section Common.
Local Open Scope float_scope.

Variable ext : Collaborators.
    (** the data member of the base class *)
Variable minimum_distance : double.

Definition compute_potential_common (distance dhat : double) : double :=
      let dhat_squared := dhat * dhat in
      barrier ext
        (distance - minimum_distance * minimum_distance)
        (2 * minimum_distance * dhat + dhat_squared).

Definition compute_potential_gradient_common
        (distance : double) (distance_grad : Vector) (dhat : double)
      : Vector :=
      let dhat_squared := dhat * dhat in
      let grad_b :=
        barrier_gradient ext
          (distance - minimum_distance * minimum_distance)
          (2 * minimum_distance * dhat + dhat_squared) in
      scal_vec grad_b distance_grad.

Definition compute_potential_hessian_common
        (distance : double) (distance_grad : Vector) (distance_hess : Matrix)
        (dhat : double) (project_hessian_to_psd : bool)
      : result Matrix :=
      let dhat_squared := dhat * dhat in
      let min_dist_squrared := minimum_distance * minimum_distance in
      let grad_b :=
        barrier_gradient ext
          (distance - min_dist_squrared)
          (2 * minimum_distance * dhat + dhat_squared) in
      let hess_b :=
        barrier_hessian ext
          (distance - min_dist_squrared)
          (2 * minimum_distance * dhat + dhat_squared) in
      _ <- assert (NDEBUG ext) (0 <=? hess_b) "hess_b >= 0" ;;
      Ok (mat_add
            (outer (scal_vec hess_b distance_grad) distance_grad)
            (if project_hessian_to_psd
             then project_to_psd ext (scal_mat grad_b distance_hess)
             else scal_mat grad_b distance_hess)).

End Common.
End CollisionConstraint.

(* ================================================================== *)
(** ** The five constraint variants

    Modelled from the spec: the class declarations are in a header that is
    not part of the sources.  Each record lists the data members the
    member functions read: the primitive indices, [minimum_distance]
    (inherited from [CollisionConstraint]) and, where present, the integer
    [multiplicity], the mollifier threshold [eps_x] or the plane. *)

Module VertexVertexConstraint.
Record t : Set := {
  vertex0_index : long;
  vertex1_index : long;
  multiplicity : long;
  minimum_distance : double
}.

Section Members.
Local Open Scope float_scope.
Variable ext : Collaborators.
Variable self : t.

Definition compute_potential
    (V : MatrixXd) (E F : MatrixXi) (dhat : double) : double :=
  let distance :=
    point_point_distance ext
      (row V (vertex0_index self)) (row V (vertex1_index self)) in
  long_to_double (multiplicity self)
  * CollisionConstraint.compute_potential_common
      ext (minimum_distance self) distance dhat.

Definition compute_potential_gradient
    (V : MatrixXd) (E F : MatrixXi) (dhat : double) : Vector :=
  let p0 := row V (vertex0_index self) in
  let p1 := row V (vertex1_index self) in
  let distance_grad := point_point_distance_gradient ext p0 p1 in
  let distance := point_point_distance ext p0 p1 in
  scal_vec (long_to_double (multiplicity self))
    (CollisionConstraint.compute_potential_gradient_common
       ext (minimum_distance self) distance distance_grad dhat).

Definition compute_potential_hessian
    (V : MatrixXd) (E F : MatrixXi) (dhat : double)
    (project_hessian_to_psd : bool) : result Matrix :=
  let p0 := row V (vertex0_index self) in
  let p1 := row V (vertex1_index self) in
  let distance := point_point_distance ext p0 p1 in
  let distance_grad := point_point_distance_gradient ext p0 p1 in
  let distance_hess := point_point_distance_hessian ext p0 p1 in
  H <- CollisionConstraint.compute_potential_hessian_common
         ext (minimum_distance self)
         distance distance_grad distance_hess dhat
         project_hessian_to_psd ;;
  Ok (scal_mat (long_to_double (multiplicity self)) H).

End Members.
End VertexVertexConstraint.

Module EdgeVertexConstraint.
Record t : Set := {
  edge_index : long;
  vertex_index : long;
  multiplicity : long;
  minimum_distance : double
}.

Section Members.
Local Open Scope float_scope.
Variable ext : Collaborators.
Variable self : t.

Definition compute_potential
    (V : MatrixXd) (E F : MatrixXi) (dhat : double) : double :=
  let distance :=
    point_edge_distance ext
      (row V (vertex_index self))
      (row V (coeff E (edge_index self) 0))
      (row V (coeff E (edge_index self) 1))
      P_E in
  long_to_double (multiplicity self)
  * CollisionConstraint.compute_potential_common
      ext (minimum_distance self) distance dhat.

Definition compute_potential_gradient
    (V : MatrixXd) (E F : MatrixXi) (dhat : double) : Vector :=
  let p := row V (vertex_index self) in
  let e0 := row V (coeff E (edge_index self) 0) in
  let e1 := row V (coeff E (edge_index self) 1) in
  let distance_grad := point_edge_distance_gradient ext p e0 e1 P_E in
  let distance := point_edge_distance ext p e0 e1 P_E in
  scal_vec (long_to_double (multiplicity self))
    (CollisionConstraint.compute_potential_gradient_common
       ext (minimum_distance self) distance distance_grad dhat).

Definition compute_potential_hessian
    (V : MatrixXd) (E F : MatrixXi) (dhat : double)
    (project_hessian_to_psd : bool) : result Matrix :=
  let p := row V (vertex_index self) in
  let e0 := row V (coeff E (edge_index self) 0) in
  let e1 := row V (coeff E (edge_index self) 1) in
  let distance := point_edge_distance ext p e0 e1 P_E in
  let distance_grad := point_edge_distance_gradient ext p e0 e1 P_E in
  let distance_hess := point_edge_distance_hessian ext p e0 e1 P_E in
  H <- CollisionConstraint.compute_potential_hessian_common
         ext (minimum_distance self)
         distance distance_grad distance_hess dhat
         project_hessian_to_psd ;;
  Ok (scal_mat (long_to_double (multiplicity self)) H).

End Members.
End EdgeVertexConstraint.

Module EdgeEdgeConstraint.
Record t : Set := {
  edge0_index : long;
  edge1_index : long;
  eps_x : double;
  minimum_distance : double
}.

Section Members.
Local Open Scope float_scope.
Variable ext : Collaborators.
Variable self : t.

Definition compute_potential
    (V : MatrixXd) (E F : MatrixXi) (dhat : double) : double :=
  let ea0 := row V (coeff E (edge0_index self) 0) in
  let ea1 := row V (coeff E (edge0_index self) 1) in
  let eb0 := row V (coeff E (edge1_index self) 0) in
  let eb1 := row V (coeff E (edge1_index self) 1) in
  let distance := edge_edge_distance_auto ext ea0 ea1 eb0 eb1 in
  edge_edge_mollifier ext ea0 ea1 eb0 eb1 (eps_x self)
  * CollisionConstraint.compute_potential_common
      ext (minimum_distance self) distance dhat.

Definition compute_potential_gradient
    (V : MatrixXd) (E F : MatrixXi) (dhat : double) : Vector :=
  let dhat_squared := dhat * dhat in
  let ea0 := row V (coeff E (edge0_index self) 0) in
  let ea1 := row V (coeff E (edge0_index self) 1) in
  let eb0 := row V (coeff E (edge1_index self) 0) in
  let eb1 := row V (coeff E (edge1_index self) 1) in
  let dtype := edge_edge_distance_type ext ea0 ea1 eb0 eb1 in
  let distance := edge_edge_distance ext ea0 ea1 eb0 eb1 dtype in
  let distance_grad :=
    edge_edge_distance_gradient ext ea0 ea1 eb0 eb1 dtype in
  let mollifier := edge_edge_mollifier ext ea0 ea1 eb0 eb1 (eps_x self) in
  let mollifier_grad :=
    edge_edge_mollifier_gradient ext ea0 ea1 eb0 eb1 (eps_x self) in
  let b :=
    barrier ext
      (distance - minimum_distance self * minimum_distance self)
      (2 * minimum_distance self * dhat + dhat_squared) in
  let barrier_distance_grad :=
    CollisionConstraint.compute_potential_gradient_common
      ext (minimum_distance self) distance distance_grad dhat in
  vec_add (vec_scal mollifier_grad b)
          (scal_vec mollifier barrier_distance_grad).

Definition compute_potential_hessian
    (V : MatrixXd) (E F : MatrixXi) (dhat : double)
    (project_hessian_to_psd : bool) : result Matrix :=
  let dhat_squared := dhat * dhat in
  let min_dist_squrared := minimum_distance self * minimum_distance self in
  let ea0 := row V (coeff E (edge0_index self) 0) in
  let ea1 := row V (coeff E (edge0_index self) 1) in
  let eb0 := row V (coeff E (edge1_index self) 0) in
  let eb1 := row V (coeff E (edge1_index self) 1) in
  let dtype := edge_edge_distance_type ext ea0 ea1 eb0 eb1 in
  let distance := edge_edge_distance ext ea0 ea1 eb0 eb1 dtype in
  let distance_grad :=
    edge_edge_distance_gradient ext ea0 ea1 eb0 eb1 dtype in
  let distance_hess :=
    edge_edge_distance_hessian ext ea0 ea1 eb0 eb1 dtype in
  let mollifier := edge_edge_mollifier ext ea0 ea1 eb0 eb1 (eps_x self) in
  let mollifier_grad :=
    edge_edge_mollifier_gradient ext ea0 ea1 eb0 eb1 (eps_x self) in
  let mollifier_hess :=
    edge_edge_mollifier_hessian ext ea0 ea1 eb0 eb1 (eps_x self) in
  let b :=
    barrier ext (distance - min_dist_squrared)
      (2 * minimum_distance self * dhat + dhat_squared) in
  let grad_b :=
    barrier_gradient ext (distance - min_dist_squrared)
      (2 * minimum_distance self * dhat + dhat_squared) in
  let hess_b :=
    barrier_hessian ext (distance - min_dist_squrared)
      (2 * minimum_distance self * dhat + dhat_squared) in
  let hess :=
    mat_add
      (mat_add
         (mat_scal mollifier_hess b)
         (scal_mat grad_b
            (mat_add (outer distance_grad mollifier_grad)
                     (outer mollifier_grad distance_grad))))
      (scal_mat mollifier
         (mat_add (outer (scal_vec hess_b distance_grad) distance_grad)
                  (scal_mat grad_b distance_hess))) in
  let hess := if project_hessian_to_psd then project_to_psd ext hess
              else hess in
  Ok hess.

End Members.
End EdgeEdgeConstraint.

Module FaceVertexConstraint.
Record t : Set := {
  face_index : long;
  vertex_index : long;
  minimum_distance : double
}.

Section Members.
Local Open Scope float_scope.
Variable ext : Collaborators.
Variable self : t.

Definition compute_potential
    (V : MatrixXd) (E F : MatrixXi) (dhat : double) : double :=
  let distance :=
    point_triangle_distance ext
      (row V (vertex_index self))
      (row V (coeff F (face_index self) 0))
      (row V (coeff F (face_index self) 1))
      (row V (coeff F (face_index self) 2))
      P_T in
  CollisionConstraint.compute_potential_common
    ext (minimum_distance self) distance dhat.

Definition compute_potential_gradient
    (V : MatrixXd) (E F : MatrixXi) (dhat : double) : Vector :=
  let p := row V (vertex_index self) in
  let t0 := row V (coeff F (face_index self) 0) in
  let t1 := row V (coeff F (face_index self) 1) in
  let t2 := row V (coeff F (face_index self) 2) in
  let distance := point_triangle_distance ext p t0 t1 t2 P_T in
  let distance_grad :=
    point_triangle_distance_gradient ext p t0 t1 t2 P_T in
  CollisionConstraint.compute_potential_gradient_common
    ext (minimum_distance self) distance distance_grad dhat.

Definition compute_potential_hessian
    (V : MatrixXd) (E F : MatrixXi) (dhat : double)
    (project_hessian_to_psd : bool) : result Matrix :=
  let p := row V (vertex_index self) in
  let t0 := row V (coeff F (face_index self) 0) in
  let t1 := row V (coeff F (face_index self) 1) in
  let t2 := row V (coeff F (face_index self) 2) in
  let distance := point_triangle_distance ext p t0 t1 t2 P_T in
  let distance_grad :=
    point_triangle_distance_gradient ext p t0 t1 t2 P_T in
  let distance_hess :=
    point_triangle_distance_hessian ext p t0 t1 t2 P_T in
  CollisionConstraint.compute_potential_hessian_common
    ext (minimum_distance self)
    distance distance_grad distance_hess dhat project_hessian_to_psd.

End Members.
End FaceVertexConstraint.

Module PlaneVertexConstraint.
Record t : Set := {
  plane_origin : Vector;
  plane_normal : Vector;
  vertex_index : long;
  minimum_distance : double
}.

Section Members.
Local Open Scope float_scope.
Variable ext : Collaborators.
Variable self : t.

Definition compute_potential
    (V : MatrixXd) (E F : MatrixXi) (dhat : double) : double :=
  let distance :=
    point_plane_distance ext
      (row V (vertex_index self)) (plane_origin self) (plane_normal self) in
  CollisionConstraint.compute_potential_common
    ext (minimum_distance self) distance dhat.

Definition compute_potential_gradient
    (V : MatrixXd) (E F : MatrixXi) (dhat : double) : Vector :=
  let p := row V (vertex_index self) in
  let distance :=
    point_plane_distance ext p (plane_origin self) (plane_normal self) in
  let distance_grad :=
    point_plane_distance_gradient ext p
      (plane_origin self) (plane_normal self) in
  CollisionConstraint.compute_potential_gradient_common
    ext (minimum_distance self) distance distance_grad dhat.

Definition compute_potential_hessian
    (V : MatrixXd) (E F : MatrixXi) (dhat : double)
    (project_hessian_to_psd : bool) : result Matrix :=
  let p := row V (vertex_index self) in
  let distance :=
    point_plane_distance ext p (plane_origin self) (plane_normal self) in
  let distance_grad :=
    point_plane_distance_gradient ext p
      (plane_origin self) (plane_normal self) in
  let distance_hess :=
    point_plane_distance_hessian ext p
      (plane_origin self) (plane_normal self) in
  CollisionConstraint.compute_potential_hessian_common
    ext (minimum_distance self)
    distance distance_grad distance_hess dhat project_hessian_to_psd.

End Members.
End PlaneVertexConstraint.

(* ================================================================== *)
(** ** A constraint seen through [CollisionConstraint&] *)

Module Virtual.

(** The dynamic type behind a reference to the base class. *)
Inductive object : Set :=
| VertexVertex (c : VertexVertexConstraint.t)
| EdgeVertex (c : EdgeVertexConstraint.t)
| EdgeEdge (c : EdgeEdgeConstraint.t)
| FaceVertex (c : FaceVertexConstraint.t)
| PlaneVertex (c : PlaneVertexConstraint.t).

Definition minimum_distance (o : object) : double :=
  match o with
  | VertexVertex c => VertexVertexConstraint.minimum_distance c
  | EdgeVertex c => EdgeVertexConstraint.minimum_distance c
  | EdgeEdge c => EdgeEdgeConstraint.minimum_distance c
  | FaceVertex c => FaceVertexConstraint.minimum_distance c
  | PlaneVertex c => PlaneVertexConstraint.minimum_distance c
  end.

Definition compute_potential (ext : Collaborators) (o : object)
    (V : MatrixXd) (E F : MatrixXi) (dhat : double) : double :=
  match o with
  | VertexVertex c => VertexVertexConstraint.compute_potential ext c V E F dhat
  | EdgeVertex c => EdgeVertexConstraint.compute_potential ext c V E F dhat
  | EdgeEdge c => EdgeEdgeConstraint.compute_potential ext c V E F dhat
  | FaceVertex c => FaceVertexConstraint.compute_potential ext c V E F dhat
  | PlaneVertex c => PlaneVertexConstraint.compute_potential ext c V E F dhat
  end.

Definition compute_potential_gradient (ext : Collaborators) (o : object)
    (V : MatrixXd) (E F : MatrixXi) (dhat : double) : Vector :=
  match o with
  | VertexVertex c =>
      VertexVertexConstraint.compute_potential_gradient ext c V E F dhat
  | EdgeVertex c =>
      EdgeVertexConstraint.compute_potential_gradient ext c V E F dhat
  | EdgeEdge c =>
      EdgeEdgeConstraint.compute_potential_gradient ext c V E F dhat
  | FaceVertex c =>
      FaceVertexConstraint.compute_potential_gradient ext c V E F dhat
  | PlaneVertex c =>
      PlaneVertexConstraint.compute_potential_gradient ext c V E F dhat
  end.

Definition compute_potential_hessian (ext : Collaborators) (o : object)
    (V : MatrixXd) (E F : MatrixXi) (dhat : double)
    (project_hessian_to_psd : bool) : result Matrix :=
  match o with
  | VertexVertex c =>
      VertexVertexConstraint.compute_potential_hessian
        ext c V E F dhat project_hessian_to_psd
  | EdgeVertex c =>
      EdgeVertexConstraint.compute_potential_hessian
        ext c V E F dhat project_hessian_to_psd
  | EdgeEdge c =>
      EdgeEdgeConstraint.compute_potential_hessian
        ext c V E F dhat project_hessian_to_psd
  | FaceVertex c =>
      FaceVertexConstraint.compute_potential_hessian
        ext c V E F dhat project_hessian_to_psd
  | PlaneVertex c =>
      PlaneVertexConstraint.compute_potential_hessian
        ext c V E F dhat project_hessian_to_psd
  end.

End Virtual.

(* ================================================================== *)
(** ** [Constraints]: the constraint-set container *)

Module Constraints.

Record t : Set := {
  vv_constraints : list VertexVertexConstraint.t;
  ev_constraints : list EdgeVertexConstraint.t;
  ee_constraints : list EdgeEdgeConstraint.t;
  fv_constraints : list FaceVertexConstraint.t;
  pv_constraints : list PlaneVertexConstraint.t
}.

Definition size (self : t) : size_t :=
  size_add
    (size_add
       (size_add
          (size_add (vector_size (vv_constraints self))
                    (vector_size (ev_constraints self)))
          (vector_size (ee_constraints self)))
       (vector_size (fv_constraints self)))
    (vector_size (pv_constraints self)).

Definition num_constraints (self : t) : size_t :=
  let num_constraints : size_t := 0 in
  let num_constraints :=
    fold_left
      (fun n vv_constraint =>
         size_add n
           (to_size_t (VertexVertexConstraint.multiplicity vv_constraint)))
      (vv_constraints self) num_constraints in
  let num_constraints :=
    fold_left
      (fun n ev_constraint =>
         size_add n
           (to_size_t (EdgeVertexConstraint.multiplicity ev_constraint)))
      (ev_constraints self) num_constraints in
  size_add num_constraints
    (size_add
       (size_add (vector_size (ee_constraints self))
                 (vector_size (fv_constraints self)))
       (vector_size (pv_constraints self))).

Definition vector_empty {A : Type} (v : list A) : bool :=
  match v with
  | [] => true
  | _ :: _ => false
  end.

Definition empty (self : t) : bool :=
  vector_empty (vv_constraints self) && vector_empty (ev_constraints self)
  && vector_empty (ee_constraints self) && vector_empty (fv_constraints self)
  && vector_empty (pv_constraints self).

(** [clear()] returns the container it leaves behind. *)
Definition clear (self : t) : t :=
  {| vv_constraints := [];
     ev_constraints := [];
     ee_constraints := [];
     fv_constraints := [];
     pv_constraints := [] |}.

(** What [operator[]] returns: a reference to an element of one of the
    five vectors. *)
Inductive reference : Set :=
| vv_at (i : size_t)
| ev_at (i : size_t)
| ee_at (i : size_t)
| fv_at (i : size_t)
| pv_at (i : size_t).

(** The object a reference designates in a given container. *)
Definition deref (self : t) (r : reference) : option Virtual.object :=
  match r with
  | vv_at i => option_map Virtual.VertexVertex
                 (vector_at (vv_constraints self) i)
  | ev_at i => option_map Virtual.EdgeVertex
                 (vector_at (ev_constraints self) i)
  | ee_at i => option_map Virtual.EdgeEdge
                 (vector_at (ee_constraints self) i)
  | fv_at i => option_map Virtual.FaceVertex
                 (vector_at (fv_constraints self) i)
  | pv_at i => option_map Virtual.PlaneVertex
                 (vector_at (pv_constraints self) i)
  end.

Definition index_error : failure :=
  out_of_range "Constraint index is out of range!".

(** The condition [idx < 0] of the first [if], on the unsigned [idx]. *)
Definition index_is_negative (idx : size_t) : bool := idx <? 0.

(** The body shared, word for word, by the two overloads of
    [operator[]]. *)
Definition operator_index_const (self : t) (idx : size_t)
  : result reference :=
  if index_is_negative idx then Fail index_error else
  if idx <? vector_size (vv_constraints self) then Ok (vv_at idx) else
  let idx := size_sub idx (vector_size (vv_constraints self)) in
  if idx <? vector_size (ev_constraints self) then Ok (ev_at idx) else
  let idx := size_sub idx (vector_size (ev_constraints self)) in
  if idx <? vector_size (ee_constraints self) then Ok (ee_at idx) else
  let idx := size_sub idx (vector_size (ee_constraints self)) in
  if idx <? vector_size (fv_constraints self) then Ok (fv_at idx) else
  let idx := size_sub idx (vector_size (fv_constraints self)) in
  if idx <? vector_size (pv_constraints self) then Ok (pv_at idx) else
  Fail index_error.

(** The non-const overload, as a transition of the container: the outcome
    of the call and the container after it. *)
Definition operator_index (self : t) (idx : size_t)
  : result reference * t :=
  (operator_index_const self idx, self).

(** The sizes of the five vectors are those of objects that coexist in
    one 64-bit address space, so their sum is below [2^64]. *)
Definition fits_address_space (self : t) : Prop :=
  vector_size (vv_constraints self) + vector_size (ev_constraints self)
  + vector_size (ee_constraints self) + vector_size (fv_constraints self)
  + vector_size (pv_constraints self) < size_modulus.

End Constraints.

(* ================================================================== *)
(** ** Smooth friction mollifier functions *)

Module Friction.

Local Open Scope Q_scope.

(** Modelled from the spec: the three functions are defined in a
    translation unit that is not part of the sources; the binding file
    only documents their closed forms.  The formulas below are those
    closed forms, branch by branch, read over exact rationals.  Every
    division goes through [checked_div], which reports a zero divisor
    instead of producing a value. *)
Definition checked_div (a b : Q) : option Q :=
  if Qeq_bool b 0 then None else Some (a / b).

Definition and_then {A B : Type} (o : option A) (k : A -> option B)
  : option B :=
  match o with
  | Some a => k a
  | None => None
  end.

(** [|s| >= epsv]: the outside branch is taken. *)
Definition outside (s epsv : Q) : bool := Qle_bool epsv (Qabs s).

(** [-s^3 / (3 epsv^2) + s^2 / epsv + epsv / 3] inside, [s] outside. *)
Definition smooth_friction_f0 (s epsv : Q) : option Q :=
  if outside s epsv then Some s
  else
    and_then (checked_div (s * s * s) (3 * (epsv * epsv))) (fun a =>
    and_then (checked_div (s * s) epsv) (fun b =>
    and_then (checked_div epsv 3) (fun c =>
    Some (- a + b + c)))).

(** [-s / epsv^2 + 2 / epsv] inside, [1 / s] outside. *)
Definition smooth_friction_f1_over_x (s epsv : Q) : option Q :=
  if outside s epsv then checked_div 1 s
  else
    and_then (checked_div s (epsv * epsv)) (fun a =>
    and_then (checked_div 2 epsv) (fun b =>
    Some (- a + b))).

(** [-1 / (s epsv^2)] inside, [-1 / s^3] outside. *)
Definition smooth_friction_f2_x_minus_f1_over_x3 (s epsv : Q) : option Q :=
  if outside s epsv
  then and_then (checked_div 1 (s * s * s)) (fun a => Some (- a))
  else and_then (checked_div 1 (s * (epsv * epsv))) (fun a => Some (- a)).

End Friction.

(* ================================================================== *)
(** ** The compositions as the specification words them *)

Module Spec.
Section Adapter.
Local Open Scope float_scope.

Variable ext : Collaborators.
Variable minimum_distance : double.

(** The potential as section 4.1 words it: the argument [d] is squared
    inside the adapter. *)
Definition potential_of_unsquared_distance (d dhat : double) : double :=
  barrier ext
    (d * d - minimum_distance * minimum_distance)
    (2 * minimum_distance * dhat + dhat * dhat).

(** The two arguments every barrier call of the source receives. *)
Definition offset (distance : double) : double :=
  distance - minimum_distance * minimum_distance.
Definition activation (dhat : double) : double :=
  2 * minimum_distance * dhat + dhat * dhat.

(** [B], [B'] and [B'']. *)
Definition B (distance dhat : double) : double :=
  barrier ext (offset distance) (activation dhat).
Definition B' (distance dhat : double) : double :=
  barrier_gradient ext (offset distance) (activation dhat).
Definition B'' (distance dhat : double) : double :=
  barrier_hessian ext (offset distance) (activation dhat).

(** [B' * grad d]. *)
Definition gradient_composition
    (distance : double) (distance_grad : Vector) (dhat : double) : Vector :=
  scal_vec (B' distance dhat) distance_grad.

(** PSD projection on request. *)
Definition projected (project_hessian_to_psd : bool) (M : Matrix) : Matrix :=
  if project_hessian_to_psd then project_to_psd ext M else M.

(** [B'' * grad d * grad d^T + B' * hess d], the projection touching the
    second addend only. *)
Definition hessian_composition
    (distance : double) (distance_grad : Vector) (distance_hess : Matrix)
    (dhat : double) (project_hessian_to_psd : bool) : Matrix :=
  mat_add
    (outer (scal_vec (B'' distance dhat) distance_grad) distance_grad)
    (projected project_hessian_to_psd
       (scal_mat (B' distance dhat) distance_hess)).

(** Section 4.3, gradient: [grad m * B + m * B' * grad d]. *)
Definition mollified_gradient
    (mollifier : double) (mollifier_grad : Vector)
    (distance : double) (distance_grad : Vector) (dhat : double) : Vector :=
  vec_add (vec_scal mollifier_grad (B distance dhat))
          (scal_vec mollifier (scal_vec (B' distance dhat) distance_grad)).

(** Section 4.3, Hessian before projection:
    [hess m * B + B' * (grad d * grad m^T + grad m * grad d^T)
     + m * (B'' * grad d * grad d^T + B' * hess d)]. *)
Definition mollified_hessian_sum
    (mollifier : double) (mollifier_grad : Vector) (mollifier_hess : Matrix)
    (distance : double) (distance_grad : Vector) (distance_hess : Matrix)
    (dhat : double) : Matrix :=
  mat_add
    (mat_add
       (mat_scal mollifier_hess (B distance dhat))
       (scal_mat (B' distance dhat)
          (mat_add (outer distance_grad mollifier_grad)
                   (outer mollifier_grad distance_grad))))
    (scal_mat mollifier
       (mat_add
          (outer (scal_vec (B'' distance dhat) distance_grad) distance_grad)
          (scal_mat (B' distance dhat) distance_hess))).

(** The projection applied to the whole sum. *)
Definition mollified_hessian
    (mollifier : double) (mollifier_grad : Vector) (mollifier_hess : Matrix)
    (distance : double) (distance_grad : Vector) (distance_hess : Matrix)
    (dhat : double) (project_hessian_to_psd : bool) : Matrix :=
  projected project_hessian_to_psd
    (mollified_hessian_sum mollifier mollifier_grad mollifier_hess
       distance distance_grad distance_hess dhat).

End Adapter.

(** The primitive distance of each variant at the current positions, with
    its gradient and Hessian: the external function of the variant, at
    the rows its indices select, with the distance type it is given. *)
Section Primitive.
Variable ext : Collaborators.
Variable V : MatrixXd.
Variables E F : MatrixXi.

(** The four end points of an edge-edge constraint. *)
Definition ea0 (c : EdgeEdgeConstraint.t) : Vector :=
  row V (coeff E (EdgeEdgeConstraint.edge0_index c) 0).
Definition ea1 (c : EdgeEdgeConstraint.t) : Vector :=
  row V (coeff E (EdgeEdgeConstraint.edge0_index c) 1).
Definition eb0 (c : EdgeEdgeConstraint.t) : Vector :=
  row V (coeff E (EdgeEdgeConstraint.edge1_index c) 0).
Definition eb1 (c : EdgeEdgeConstraint.t) : Vector :=
  row V (coeff E (EdgeEdgeConstraint.edge1_index c) 1).

(** The edge-edge distance type at the current positions, from the
    classifier. *)
Definition classified (c : EdgeEdgeConstraint.t) : EdgeEdgeDistanceType :=
  edge_edge_distance_type ext (ea0 c) (ea1 c) (eb0 c) (eb1 c).

Definition distance (o : Virtual.object) : double :=
  match o with
  | Virtual.VertexVertex c =>
      point_point_distance ext
        (row V (VertexVertexConstraint.vertex0_index c))
        (row V (VertexVertexConstraint.vertex1_index c))
  | Virtual.EdgeVertex c =>
      point_edge_distance ext
        (row V (EdgeVertexConstraint.vertex_index c))
        (row V (coeff E (EdgeVertexConstraint.edge_index c) 0))
        (row V (coeff E (EdgeVertexConstraint.edge_index c) 1))
        P_E
  | Virtual.EdgeEdge c =>
      edge_edge_distance ext (ea0 c) (ea1 c) (eb0 c) (eb1 c) (classified c)
  | Virtual.FaceVertex c =>
      point_triangle_distance ext
        (row V (FaceVertexConstraint.vertex_index c))
        (row V (coeff F (FaceVertexConstraint.face_index c) 0))
        (row V (coeff F (FaceVertexConstraint.face_index c) 1))
        (row V (coeff F (FaceVertexConstraint.face_index c) 2))
        P_T
  | Virtual.PlaneVertex c =>
      point_plane_distance ext
        (row V (PlaneVertexConstraint.vertex_index c))
        (PlaneVertexConstraint.plane_origin c)
        (PlaneVertexConstraint.plane_normal c)
  end.

Definition distance_grad (o : Virtual.object) : Vector :=
  match o with
  | Virtual.VertexVertex c =>
      point_point_distance_gradient ext
        (row V (VertexVertexConstraint.vertex0_index c))
        (row V (VertexVertexConstraint.vertex1_index c))
  | Virtual.EdgeVertex c =>
      point_edge_distance_gradient ext
        (row V (EdgeVertexConstraint.vertex_index c))
        (row V (coeff E (EdgeVertexConstraint.edge_index c) 0))
        (row V (coeff E (EdgeVertexConstraint.edge_index c) 1))
        P_E
  | Virtual.EdgeEdge c =>
      edge_edge_distance_gradient ext
        (ea0 c) (ea1 c) (eb0 c) (eb1 c) (classified c)
  | Virtual.FaceVertex c =>
      point_triangle_distance_gradient ext
        (row V (FaceVertexConstraint.vertex_index c))
        (row V (coeff F (FaceVertexConstraint.face_index c) 0))
        (row V (coeff F (FaceVertexConstraint.face_index c) 1))
        (row V (coeff F (FaceVertexConstraint.face_index c) 2))
        P_T
  | Virtual.PlaneVertex c =>
      point_plane_distance_gradient ext
        (row V (PlaneVertexConstraint.vertex_index c))
        (PlaneVertexConstraint.plane_origin c)
        (PlaneVertexConstraint.plane_normal c)
  end.

Definition distance_hess (o : Virtual.object) : Matrix :=
  match o with
  | Virtual.VertexVertex c =>
      point_point_distance_hessian ext
        (row V (VertexVertexConstraint.vertex0_index c))
        (row V (VertexVertexConstraint.vertex1_index c))
  | Virtual.EdgeVertex c =>
      point_edge_distance_hessian ext
        (row V (EdgeVertexConstraint.vertex_index c))
        (row V (coeff E (EdgeVertexConstraint.edge_index c) 0))
        (row V (coeff E (EdgeVertexConstraint.edge_index c) 1))
        P_E
  | Virtual.EdgeEdge c =>
      edge_edge_distance_hessian ext
        (ea0 c) (ea1 c) (eb0 c) (eb1 c) (classified c)
  | Virtual.FaceVertex c =>
      point_triangle_distance_hessian ext
        (row V (FaceVertexConstraint.vertex_index c))
        (row V (coeff F (FaceVertexConstraint.face_index c) 0))
        (row V (coeff F (FaceVertexConstraint.face_index c) 1))
        (row V (coeff F (FaceVertexConstraint.face_index c) 2))
        P_T
  | Virtual.PlaneVertex c =>
      point_plane_distance_hessian ext
        (row V (PlaneVertexConstraint.vertex_index c))
        (PlaneVertexConstraint.plane_origin c)
        (PlaneVertexConstraint.plane_normal c)
  end.

(** The mollifier of an edge-edge constraint and its derivatives. *)
Definition mollifier (c : EdgeEdgeConstraint.t) : double :=
  edge_edge_mollifier ext (ea0 c) (ea1 c) (eb0 c) (eb1 c)
    (EdgeEdgeConstraint.eps_x c).
Definition mollifier_grad (c : EdgeEdgeConstraint.t) : Vector :=
  edge_edge_mollifier_gradient ext (ea0 c) (ea1 c) (eb0 c) (eb1 c)
    (EdgeEdgeConstraint.eps_x c).
Definition mollifier_hess (c : EdgeEdgeConstraint.t) : Matrix :=
  edge_edge_mollifier_hessian ext (ea0 c) (ea1 c) (eb0 c) (eb1 c)
    (EdgeEdgeConstraint.eps_x c).

End Primitive.

(** The multiplicity of a variant that carries one. *)
Definition multiplicity_of (o : Virtual.object) : option long :=
  match o with
  | Virtual.VertexVertex c => Some (VertexVertexConstraint.multiplicity c)
  | Virtual.EdgeVertex c => Some (EdgeVertexConstraint.multiplicity c)
  | _ => None
  end.

(** The variants without a mollifier. *)
Definition unmollified (o : Virtual.object) : bool :=
  match o with
  | Virtual.EdgeEdge _ => false
  | _ => true
  end.

(** The factor a variant with a multiplicity puts in front of a matrix;
    the other variants return the matrix as it is. *)
Definition scaled_by_multiplicity (o : Virtual.object) (M : Matrix)
  : Matrix :=
  match o with
  | Virtual.VertexVertex c =>
      scal_mat (long_to_double (VertexVertexConstraint.multiplicity c)) M
  | Virtual.EdgeVertex c =>
      scal_mat (long_to_double (EdgeVertexConstraint.multiplicity c)) M
  | _ => M
  end.

(** The concatenation of the five sequences in the fixed order. *)
Definition concatenation (c : Constraints.t) : list Virtual.object :=
  map Virtual.VertexVertex (Constraints.vv_constraints c)
  ++ map Virtual.EdgeVertex (Constraints.ev_constraints c)
  ++ map Virtual.EdgeEdge (Constraints.ee_constraints c)
  ++ map Virtual.FaceVertex (Constraints.fv_constraints c)
  ++ map Virtual.PlaneVertex (Constraints.pv_constraints c).

(** Sum of the multiplicities of a sequence, and the two counts of
    section 3 as integers without a bound. *)
Definition multiplicity_sum {A : Type} (m : A -> Z) (l : list A) : Z :=
  fold_right (fun x acc => m x + acc) 0 l.

Definition instance_count (c : Constraints.t) : Z :=
  vector_size (Constraints.vv_constraints c)
  + vector_size (Constraints.ev_constraints c)
  + vector_size (Constraints.ee_constraints c)
  + vector_size (Constraints.fv_constraints c)
  + vector_size (Constraints.pv_constraints c).

Definition weighted_count (c : Constraints.t) : Z :=
  multiplicity_sum VertexVertexConstraint.multiplicity
    (Constraints.vv_constraints c)
  + multiplicity_sum EdgeVertexConstraint.multiplicity
      (Constraints.ev_constraints c)
  + vector_size (Constraints.ee_constraints c)
  + vector_size (Constraints.fv_constraints c)
  + vector_size (Constraints.pv_constraints c).

(** Every VertexVertex and EdgeVertex multiplicity satisfies [P]. *)
Definition multiplicities (P : Z -> Prop) (c : Constraints.t) : Prop :=
  Forall (fun x => P (VertexVertexConstraint.multiplicity x))
    (Constraints.vv_constraints c)
  /\ Forall (fun x => P (EdgeVertexConstraint.multiplicity x))
       (Constraints.ev_constraints c).

(** All five sequences are empty. *)
Definition all_sequences_empty (c : Constraints.t) : Prop :=
  Constraints.vv_constraints c = []
  /\ Constraints.ev_constraints c = []
  /\ Constraints.ee_constraints c = []
  /\ Constraints.fv_constraints c = []
  /\ Constraints.pv_constraints c = [].

(** [operator[]] without its first [if]: only the range subtraction and
    the final bounds check. *)
Definition bounds_checked_lookup (self : Constraints.t) (idx : size_t)
  : result Constraints.reference :=
  let vv := Constraints.vv_constraints self in
  let ev := Constraints.ev_constraints self in
  let ee := Constraints.ee_constraints self in
  let fv := Constraints.fv_constraints self in
  let pv := Constraints.pv_constraints self in
  if idx <? vector_size vv then Ok (Constraints.vv_at idx) else
  let idx := size_sub idx (vector_size vv) in
  if idx <? vector_size ev then Ok (Constraints.ev_at idx) else
  let idx := size_sub idx (vector_size ev) in
  if idx <? vector_size ee then Ok (Constraints.ee_at idx) else
  let idx := size_sub idx (vector_size ee) in
  if idx <? vector_size fv then Ok (Constraints.fv_at idx) else
  let idx := size_sub idx (vector_size fv) in
  if idx <? vector_size pv then Ok (Constraints.pv_at idx) else
  Fail Constraints.index_error.

End Spec.

(* ================================================================== *)
(** ** A concrete set of collaborators, to run the embedding *)

Module Sample.

Local Open Scope float_scope.

(** Modelled from the spec: the barrier primitive is not part of the
    sources.  This rational barrier has the properties section 4.1 lists:
    it vanishes from the activation threshold on, and below it is
    decreasing, convex and unbounded near zero. *)
Definition sample_barrier (x t : double) : double :=
  if (0 <? x) && (x <? t) then (t - x) * (t - x) / x else 0.
Definition sample_barrier_gradient (x t : double) : double :=
  if (0 <? x) && (x <? t) then 1 - (t * t) / (x * x) else 0.
Definition sample_barrier_hessian (x t : double) : double :=
  if (0 <? x) && (x <? t) then 2 * (t * t) / (x * x * x) else 0.

Definition vec_sub (u v : Vector) : Vector := zip_with PrimFloat.sub u v.
Definition dot (u v : Vector) : double :=
  fold_left PrimFloat.add (zip_with PrimFloat.mul u v) 0.

(** Squared distance between two points, with its derivatives in the
    stacked coordinates of the two points. *)
Definition sample_point_point_distance (p0 p1 : Vector) : double :=
  dot (vec_sub p0 p1) (vec_sub p0 p1).
Definition sample_point_point_distance_gradient (p0 p1 : Vector) : Vector :=
  scal_vec 2 (vec_sub p0 p1) ++ scal_vec 2 (vec_sub p1 p0).
Definition sample_point_point_distance_hessian (p0 p1 : Vector) : Matrix :=
  let n := List.length p0 in
  map (fun i =>
         map (fun j =>
                if Nat.eqb i j then 2
                else if Nat.eqb (i + n) j || Nat.eqb (j + n) i then -2
                else 0)
             (seq 0 (n + n)))
      (seq 0 (n + n)).

(** Squared distance of a point to a plane with a unit normal. *)
Definition sample_point_plane_distance (p origin normal : Vector) : double :=
  let h := dot (vec_sub p origin) normal in h * h.
Definition sample_point_plane_distance_gradient (p origin normal : Vector)
  : Vector :=
  scal_vec (2 * dot (vec_sub p origin) normal) normal.
Definition sample_point_plane_distance_hessian (p origin normal : Vector)
  : Matrix :=
  scal_mat 2 (outer normal normal).

(** Clamps negative entries; on a diagonal matrix this is the projection
    onto the positive-semidefinite cone. *)
Definition clamp_negative_entries (M : Matrix) : Matrix :=
  map (map (fun x => if x <? 0 then 0 else x)) M.

(** The point-edge, point-triangle and edge-edge entries are placeholders
    that the examples of this file never call. *)
Definition collaborators : Collaborators := {|
  NDEBUG := false;
  barrier := sample_barrier;
  barrier_gradient := sample_barrier_gradient;
  barrier_hessian := sample_barrier_hessian;
  point_point_distance := sample_point_point_distance;
  point_point_distance_gradient := sample_point_point_distance_gradient;
  point_point_distance_hessian := sample_point_point_distance_hessian;
  point_edge_distance := fun _ _ _ _ => 0;
  point_edge_distance_gradient := fun _ _ _ _ => [];
  point_edge_distance_hessian := fun _ _ _ _ => [];
  point_triangle_distance := fun _ _ _ _ _ => 0;
  point_triangle_distance_gradient := fun _ _ _ _ _ => [];
  point_triangle_distance_hessian := fun _ _ _ _ _ => [];
  edge_edge_distance_type := fun _ _ _ _ => EA_EB;
  edge_edge_distance_auto := fun _ _ _ _ => 0;
  edge_edge_distance := fun _ _ _ _ _ => 0;
  edge_edge_distance_gradient := fun _ _ _ _ _ => [];
  edge_edge_distance_hessian := fun _ _ _ _ _ => [];
  edge_edge_mollifier := fun _ _ _ _ _ => 1;
  edge_edge_mollifier_gradient := fun _ _ _ _ _ => [];
  edge_edge_mollifier_hessian := fun _ _ _ _ _ => [];
  point_plane_distance := sample_point_plane_distance;
  point_plane_distance_gradient := sample_point_plane_distance_gradient;
  point_plane_distance_hessian := sample_point_plane_distance_hessian;
  project_to_psd := clamp_negative_entries
|}.

(** Two points at squared distance 2, one vertex-vertex constraint of
    multiplicity 3 between them, and no offset. *)
Definition V : MatrixXd := [[0; 0; 0]; [1; 1; 0]].
Definition E : MatrixXi := [[0; 1]]%Z.
Definition F : MatrixXi := [].

Definition vv : VertexVertexConstraint.t := {|
  VertexVertexConstraint.vertex0_index := 0%Z;
  VertexVertexConstraint.vertex1_index := 1%Z;
  VertexVertexConstraint.multiplicity := 3%Z;
  VertexVertexConstraint.minimum_distance := 0
|}.

(** One constraint of each of the other variants. *)
Definition ev : EdgeVertexConstraint.t := {|
  EdgeVertexConstraint.edge_index := 0%Z;
  EdgeVertexConstraint.vertex_index := 1%Z;
  EdgeVertexConstraint.multiplicity := 2%Z;
  EdgeVertexConstraint.minimum_distance := 0
|}.

Definition ee : EdgeEdgeConstraint.t := {|
  EdgeEdgeConstraint.edge0_index := 0%Z;
  EdgeEdgeConstraint.edge1_index := 0%Z;
  EdgeEdgeConstraint.eps_x := 1;
  EdgeEdgeConstraint.minimum_distance := 0
|}.

Definition fv : FaceVertexConstraint.t := {|
  FaceVertexConstraint.face_index := 0%Z;
  FaceVertexConstraint.vertex_index := 0%Z;
  FaceVertexConstraint.minimum_distance := 0
|}.

Definition pv : PlaneVertexConstraint.t := {|
  PlaneVertexConstraint.plane_origin := [0; 0; 0];
  PlaneVertexConstraint.plane_normal := [0; 0; 1];
  PlaneVertexConstraint.vertex_index := 1%Z;
  PlaneVertexConstraint.minimum_distance := 0
|}.

(** A container with one constraint of each variant, in which flat index
    2 is the edge-edge constraint. *)
Definition one_of_each : Constraints.t := {|
  Constraints.vv_constraints := [vv];
  Constraints.ev_constraints := [ev];
  Constraints.ee_constraints := [ee];
  Constraints.fv_constraints := [fv];
  Constraints.pv_constraints := [pv]
|}.

Definition vv_of_multiplicity (m : long) : VertexVertexConstraint.t := {|
  VertexVertexConstraint.vertex0_index := 0%Z;
  VertexVertexConstraint.vertex1_index := 1%Z;
  VertexVertexConstraint.multiplicity := m;
  VertexVertexConstraint.minimum_distance := 0
|}.

(** Three vertex-vertex constraints whose multiplicities, each a value of
    [long], add up to [2^64]. *)
Definition heavy : Constraints.t := {|
  Constraints.vv_constraints :=
    [vv_of_multiplicity (2 ^ 63 - 1); vv_of_multiplicity (2 ^ 63 - 1);
     vv_of_multiplicity 2]%Z;
  Constraints.ev_constraints := [];
  Constraints.ee_constraints := [];
  Constraints.fv_constraints := [];
  Constraints.pv_constraints := []
|}.

End Sample.

(* ================================================================== *)
(** ** Shapes, stencils and closed forms used to state properties *)

Module Shape.

(** An [r] by [c] matrix: [r] rows of [c] entries. *)
Definition is_matrix (r c : nat) (M : Matrix) : Prop :=
  List.length M = r /\ Forall (fun row => List.length row = c) M.

(** The vertices whose rows a constraint reads from the vertex matrix. *)
Definition stencil (E F : MatrixXi) (o : Virtual.object) : list long :=
  match o with
  | Virtual.VertexVertex c =>
      [VertexVertexConstraint.vertex0_index c;
       VertexVertexConstraint.vertex1_index c]
  | Virtual.EdgeVertex c =>
      [EdgeVertexConstraint.vertex_index c;
       coeff E (EdgeVertexConstraint.edge_index c) 0;
       coeff E (EdgeVertexConstraint.edge_index c) 1]
  | Virtual.EdgeEdge c =>
      [coeff E (EdgeEdgeConstraint.edge0_index c) 0;
       coeff E (EdgeEdgeConstraint.edge0_index c) 1;
       coeff E (EdgeEdgeConstraint.edge1_index c) 0;
       coeff E (EdgeEdgeConstraint.edge1_index c) 1]
  | Virtual.FaceVertex c =>
      [FaceVertexConstraint.vertex_index c;
       coeff F (FaceVertexConstraint.face_index c) 0;
       coeff F (FaceVertexConstraint.face_index c) 1;
       coeff F (FaceVertexConstraint.face_index c) 2]
  | Virtual.PlaneVertex c => [PlaneVertexConstraint.vertex_index c]
  end.

(** The flat index of element [i] of each of the five vectors. *)
Definition flat_index (c : Constraints.t) (r : Constraints.reference) : Z :=
  match r with
  | Constraints.vv_at i => i
  | Constraints.ev_at i =>
      vector_size (Constraints.vv_constraints c) + i
  | Constraints.ee_at i =>
      vector_size (Constraints.vv_constraints c)
      + vector_size (Constraints.ev_constraints c) + i
  | Constraints.fv_at i =>
      vector_size (Constraints.vv_constraints c)
      + vector_size (Constraints.ev_constraints c)
      + vector_size (Constraints.ee_constraints c) + i
  | Constraints.pv_at i =>
      vector_size (Constraints.vv_constraints c)
      + vector_size (Constraints.ev_constraints c)
      + vector_size (Constraints.ee_constraints c)
      + vector_size (Constraints.fv_constraints c) + i
  end.

(** A reference to an existing element: its index is within the vector
    it names. *)
Definition in_bounds (c : Constraints.t) (r : Constraints.reference)
  : Prop :=
  match r with
  | Constraints.vv_at i =>
      0 <= i < vector_size (Constraints.vv_constraints c)
  | Constraints.ev_at i =>
      0 <= i < vector_size (Constraints.ev_constraints c)
  | Constraints.ee_at i =>
      0 <= i < vector_size (Constraints.ee_constraints c)
  | Constraints.fv_at i =>
      0 <= i < vector_size (Constraints.fv_constraints c)
  | Constraints.pv_at i =>
      0 <= i < vector_size (Constraints.pv_constraints c)
  end.

(** The connectivity entries a constraint reads are the same in [E], [F]
    and in [E'], [F']. *)
Definition same_connectivity_read
    (E F E' F' : MatrixXi) (o : Virtual.object) : Prop :=
  match o with
  | Virtual.VertexVertex _ => True
  | Virtual.EdgeVertex c =>
      coeff E (EdgeVertexConstraint.edge_index c) 0
      = coeff E' (EdgeVertexConstraint.edge_index c) 0
      /\ coeff E (EdgeVertexConstraint.edge_index c) 1
         = coeff E' (EdgeVertexConstraint.edge_index c) 1
  | Virtual.EdgeEdge c =>
      coeff E (EdgeEdgeConstraint.edge0_index c) 0
      = coeff E' (EdgeEdgeConstraint.edge0_index c) 0
      /\ coeff E (EdgeEdgeConstraint.edge0_index c) 1
         = coeff E' (EdgeEdgeConstraint.edge0_index c) 1
      /\ coeff E (EdgeEdgeConstraint.edge1_index c) 0
         = coeff E' (EdgeEdgeConstraint.edge1_index c) 0
      /\ coeff E (EdgeEdgeConstraint.edge1_index c) 1
         = coeff E' (EdgeEdgeConstraint.edge1_index c) 1
  | Virtual.FaceVertex c =>
      coeff F (FaceVertexConstraint.face_index c) 0
      = coeff F' (FaceVertexConstraint.face_index c) 0
      /\ coeff F (FaceVertexConstraint.face_index c) 1
         = coeff F' (FaceVertexConstraint.face_index c) 1
      /\ coeff F (FaceVertexConstraint.face_index c) 2
         = coeff F' (FaceVertexConstraint.face_index c) 2
  | Virtual.PlaneVertex _ => True
  end.

End Shape.

Module FrictionForms.

Local Open Scope Q_scope.

(** The inside-branch closed forms of the three documented formulas, and
    the documented [f1]. *)
Definition f0_inside (s epsv : Q) : Q :=
  - (s * s * s / (3 * (epsv * epsv))) + s * s / epsv + epsv / 3.
Definition f1_over_x_inside (s epsv : Q) : Q :=
  - (s / (epsv * epsv)) + 2 / epsv.
Definition f2_x_minus_f1_over_x3_inside (s epsv : Q) : Q :=
  - (1 / (s * (epsv * epsv))).
Definition f1_inside (s epsv : Q) : Q :=
  - (s * s / (epsv * epsv)) + 2 * s / epsv.

End FrictionForms.

(* ================================================================== *)
(** ** Entries, and a mesh on a line with its edge-edge collaborators *)

Module Entry.

(** Entry [i] of a vector and entry [(i, j)] of a matrix. *)
Definition coordinate (v : Vector) (i : nat) : double := nth i v 0%float.
Definition entry (M : Matrix) (i j : nat) : double :=
  nth j (nth i M []) 0%float.

End Entry.

Module Line.

Local Open Scope float_scope.

(** Modelled from the spec: the edge-edge distance, its type classifier
    and the mollifier are not part of the sources.  These are their
    counterparts for two segments [a0, a1] and [b0, b1] of a line, each
    vertex having one coordinate, with exact derivatives in the
    coordinates [(a0, a1, b0, b1)]: the squared distance between the end
    points the type selects, and the mollifier
    [(a1 - a0) (b1 - b0) / eps_x]. *)
Definition x (p : Vector) : double := nth 0 p 0.

(** The first segment lies before the second: the closest points are
    [a1] and [b0]. *)
Definition line_distance_type (ea0 ea1 eb0 eb1 : Vector)
  : EdgeEdgeDistanceType := EA1_EB0.

Definition line_distance (ea0 ea1 eb0 eb1 : Vector)
    (dtype : EdgeEdgeDistanceType) : double :=
  match dtype with
  | EA1_EB0 => (x ea1 - x eb0) * (x ea1 - x eb0)
  | _ => (x ea0 - x eb0) * (x ea0 - x eb0)
  end.

Definition line_distance_gradient (ea0 ea1 eb0 eb1 : Vector)
    (dtype : EdgeEdgeDistanceType) : Vector :=
  match dtype with
  | EA1_EB0 => [0; 2 * (x ea1 - x eb0); - (2 * (x ea1 - x eb0)); 0]
  | _ => [2 * (x ea0 - x eb0); 0; - (2 * (x ea0 - x eb0)); 0]
  end.

Definition line_distance_hessian (ea0 ea1 eb0 eb1 : Vector)
    (dtype : EdgeEdgeDistanceType) : Matrix :=
  match dtype with
  | EA1_EB0 => [[0; 0; 0; 0]; [0; 2; -2; 0]; [0; -2; 2; 0]; [0; 0; 0; 0]]
  | _ => [[2; 0; -2; 0]; [0; 0; 0; 0]; [-2; 0; 2; 0]; [0; 0; 0; 0]]
  end.

Definition line_mollifier (ea0 ea1 eb0 eb1 : Vector) (eps_x : double)
  : double :=
  (x ea1 - x ea0) * (x eb1 - x eb0) / eps_x.

Definition line_mollifier_gradient (ea0 ea1 eb0 eb1 : Vector)
    (eps_x : double) : Vector :=
  [- ((x eb1 - x eb0) / eps_x); (x eb1 - x eb0) / eps_x;
   - ((x ea1 - x ea0) / eps_x); (x ea1 - x ea0) / eps_x].

Definition line_mollifier_hessian (ea0 ea1 eb0 eb1 : Vector)
    (eps_x : double) : Matrix :=
  [[0; 0; 1 / eps_x; - (1 / eps_x)];
   [0; 0; - (1 / eps_x); 1 / eps_x];
   [1 / eps_x; - (1 / eps_x); 0; 0];
   [- (1 / eps_x); 1 / eps_x; 0; 0]].

(** The sample collaborators with the edge-edge entries of the line. *)
Definition collaborators : Collaborators := {|
  NDEBUG := NDEBUG Sample.collaborators;
  barrier := barrier Sample.collaborators;
  barrier_gradient := barrier_gradient Sample.collaborators;
  barrier_hessian := barrier_hessian Sample.collaborators;
  point_point_distance := point_point_distance Sample.collaborators;
  point_point_distance_gradient :=
    point_point_distance_gradient Sample.collaborators;
  point_point_distance_hessian :=
    point_point_distance_hessian Sample.collaborators;
  point_edge_distance := point_edge_distance Sample.collaborators;
  point_edge_distance_gradient :=
    point_edge_distance_gradient Sample.collaborators;
  point_edge_distance_hessian :=
    point_edge_distance_hessian Sample.collaborators;
  point_triangle_distance := point_triangle_distance Sample.collaborators;
  point_triangle_distance_gradient :=
    point_triangle_distance_gradient Sample.collaborators;
  point_triangle_distance_hessian :=
    point_triangle_distance_hessian Sample.collaborators;
  edge_edge_distance_type := line_distance_type;
  edge_edge_distance_auto :=
    fun ea0 ea1 eb0 eb1 =>
      line_distance ea0 ea1 eb0 eb1 (line_distance_type ea0 ea1 eb0 eb1);
  edge_edge_distance := line_distance;
  edge_edge_distance_gradient := line_distance_gradient;
  edge_edge_distance_hessian := line_distance_hessian;
  edge_edge_mollifier := line_mollifier;
  edge_edge_mollifier_gradient := line_mollifier_gradient;
  edge_edge_mollifier_hessian := line_mollifier_hessian;
  point_plane_distance := point_plane_distance Sample.collaborators;
  point_plane_distance_gradient :=
    point_plane_distance_gradient Sample.collaborators;
  point_plane_distance_hessian :=
    point_plane_distance_hessian Sample.collaborators;
  project_to_psd := project_to_psd Sample.collaborators
|}.

(** Four vertices at 0, 1, 3 and 5, the edges (0, 1) and (2, 3), and the
    edge-edge constraint between them with [eps_x = 4] and no offset:
    squared distance 4 and mollifier 1/2. *)
Definition V : MatrixXd := [[0]; [1]; [3]; [5]].
Definition E : MatrixXi := [[0; 1]; [2; 3]]%Z.
Definition F : MatrixXi := [].

Definition ee : EdgeEdgeConstraint.t := {|
  EdgeEdgeConstraint.edge0_index := 0%Z;
  EdgeEdgeConstraint.edge1_index := 1%Z;
  EdgeEdgeConstraint.eps_x := 4;
  EdgeEdgeConstraint.minimum_distance := 0
|}.

End Line.

(* ================================================================== *)
(** * Properties *)

(** ** The barrier adapter and the constraint variants *)

Section AdapterProperties.
Local Open Scope float_scope.

(** Two doubles that the IEEE comparison tells apart are different. *)
Lemma double_neq (a b : double) :
  PrimFloat.eqb a a = true -> PrimFloat.eqb a b = false -> a <> b.
Proof.
  intros Haa Hab Heq. rewrite <- Heq in Hab. congruence.
Qed.

(** The shared Hessian composition returns, and returns the composition
    of section 4.1, whenever its assertion [hess_b >= 0] holds. *)
Lemma hessian_common_returns
    (ext : Collaborators) (md distance : double) (distance_grad : Vector)
    (distance_hess : Matrix) (dhat : double) (project : bool) :
  (0 <=? Spec.B'' ext md distance dhat) = true ->
  CollisionConstraint.compute_potential_hessian_common
    ext md distance distance_grad distance_hess dhat project
  = Ok (Spec.hessian_composition
          ext md distance distance_grad distance_hess dhat project).
Proof.
  intros Hassert.
  unfold CollisionConstraint.compute_potential_hessian_common, assert.
  unfold Spec.B'', Spec.offset, Spec.activation in Hassert.
  cbv zeta. rewrite Hassert. destruct (NDEBUG ext); reflexivity.
Qed.

(** Compiled with [NDEBUG], it returns the composition for every input. *)
Lemma hessian_common_unchecked
    (ext : Collaborators) (md distance : double) (distance_grad : Vector)
    (distance_hess : Matrix) (dhat : double) (project : bool) :
  NDEBUG ext = true ->
  CollisionConstraint.compute_potential_hessian_common
    ext md distance distance_grad distance_hess dhat project
  = Ok (Spec.hessian_composition
          ext md distance distance_grad distance_hess dhat project).
Proof.
  intros Hbuild.
  unfold CollisionConstraint.compute_potential_hessian_common, assert.
  cbv zeta. rewrite Hbuild. reflexivity.
Qed.

(** Compiled without [NDEBUG], when the assertion fails the call does not
    return a matrix. *)
Lemma hessian_common_aborts
    (ext : Collaborators) (md distance : double) (distance_grad : Vector)
    (distance_hess : Matrix) (dhat : double) (project : bool) :
  NDEBUG ext = false ->
  (0 <=? Spec.B'' ext md distance dhat) = false ->
  CollisionConstraint.compute_potential_hessian_common
    ext md distance distance_grad distance_hess dhat project
  = Fail (assertion_failed "hess_b >= 0").
Proof.
  intros Hbuild Hassert.
  unfold CollisionConstraint.compute_potential_hessian_common, assert.
  unfold Spec.B'', Spec.offset, Spec.activation in Hassert.
  cbv zeta. rewrite Hbuild, Hassert. reflexivity.
Qed.

(** C1 (amended).  The adapter hands its [distance] argument to the
    barrier unsquared: [compute_potential_common(distance, dhat)] is
    [barrier(distance - minimum_distance^2,
             2 * minimum_distance * dhat + dhat^2)].
    For every variant the argument is the value the external distance
    function of the variant returned, and the potential is that barrier
    value, times the multiplicity (VertexVertex, EdgeVertex) or the
    mollifier (EdgeEdge). *)
Theorem compute_potential_common_takes_distance_as_given :
  forall (ext : Collaborators) (o : Virtual.object)
         (V : MatrixXd) (E F : MatrixXi) (dhat : double),
    (forall md distance : double,
        CollisionConstraint.compute_potential_common ext md distance dhat
        = barrier ext (distance - md * md) (2 * md * dhat + dhat * dhat))
    /\ match o with
       | Virtual.VertexVertex c =>
           Virtual.compute_potential ext o V E F dhat
           = long_to_double (VertexVertexConstraint.multiplicity c)
             * Spec.B ext (VertexVertexConstraint.minimum_distance c)
                 (Spec.distance ext V E F o) dhat
       | Virtual.EdgeVertex c =>
           Virtual.compute_potential ext o V E F dhat
           = long_to_double (EdgeVertexConstraint.multiplicity c)
             * Spec.B ext (EdgeVertexConstraint.minimum_distance c)
                 (Spec.distance ext V E F o) dhat
       | Virtual.EdgeEdge c =>
           Virtual.compute_potential ext o V E F dhat
           = Spec.mollifier ext V E c
             * Spec.B ext (EdgeEdgeConstraint.minimum_distance c)
                 (edge_edge_distance_auto ext
                    (Spec.ea0 V E c) (Spec.ea1 V E c)
                    (Spec.eb0 V E c) (Spec.eb1 V E c))
                 dhat
       | Virtual.FaceVertex c =>
           Virtual.compute_potential ext o V E F dhat
           = Spec.B ext (FaceVertexConstraint.minimum_distance c)
               (Spec.distance ext V E F o) dhat
       | Virtual.PlaneVertex c =>
           Virtual.compute_potential ext o V E F dhat
           = Spec.B ext (PlaneVertexConstraint.minimum_distance c)
               (Spec.distance ext V E F o) dhat
       end.
Proof.
  intros ext o V E F dhat. split.
  - intros md distance. reflexivity.
  - destruct o as [c | c | c | c | c]; reflexivity.
Qed.

(** C1, as stated, fails: with the sample barrier, no offset, [dhat = 2]
    and the argument [2], the adapter returns [barrier(2, 4) = 2], while
    squaring inside the adapter would give [barrier(4, 4) = 0]. *)
Lemma compute_potential_common_does_not_square :
  CollisionConstraint.compute_potential_common Sample.collaborators 0 2 2 = 2
  /\ Spec.potential_of_unsquared_distance Sample.collaborators 0 2 2 = 0
  /\ CollisionConstraint.compute_potential_common Sample.collaborators 0 2 2
     <> Spec.potential_of_unsquared_distance Sample.collaborators 0 2 2.
Proof.
  split; [reflexivity | split; [reflexivity |]].
  apply double_neq; vm_compute; reflexivity.
Qed.

(** The EdgeEdge Hessian, with its local variables named as section 4.3
    names them. *)
Lemma edge_edge_hessian_unfolded :
  forall (ext : Collaborators) (c : EdgeEdgeConstraint.t)
         (V : MatrixXd) (E F : MatrixXi) (dhat : double),
    let md := EdgeEdgeConstraint.minimum_distance c in
    let o := Virtual.EdgeEdge c in
    let sum :=
      Spec.mollified_hessian_sum ext md
        (Spec.mollifier ext V E c) (Spec.mollifier_grad ext V E c)
        (Spec.mollifier_hess ext V E c)
        (Spec.distance ext V E F o) (Spec.distance_grad ext V E F o)
        (Spec.distance_hess ext V E F o) dhat in
    EdgeEdgeConstraint.compute_potential_hessian ext c V E F dhat true
    = Ok (project_to_psd ext sum)
    /\ EdgeEdgeConstraint.compute_potential_hessian ext c V E F dhat false
       = Ok sum
    /\ forall project : bool,
        Virtual.compute_potential_hessian ext o V E F dhat project
        = Ok (Spec.mollified_hessian ext md
                (Spec.mollifier ext V E c) (Spec.mollifier_grad ext V E c)
                (Spec.mollifier_hess ext V E c)
                (Spec.distance ext V E F o) (Spec.distance_grad ext V E F o)
                (Spec.distance_hess ext V E F o) dhat project).
Proof.
  intros ext c V E F dhat md o sum.
  split; [reflexivity | split; [reflexivity |]].
  intros [|]; reflexivity.
Qed.

(** The EdgeEdge gradient, with its local variables named as section
    4.3 names them. *)
Lemma edge_edge_gradient_unfolded :
  forall (ext : Collaborators) (c : EdgeEdgeConstraint.t)
         (V : MatrixXd) (E F : MatrixXi) (dhat : double),
    let md := EdgeEdgeConstraint.minimum_distance c in
    let ea0 := row V (coeff E (EdgeEdgeConstraint.edge0_index c) 0) in
    let ea1 := row V (coeff E (EdgeEdgeConstraint.edge0_index c) 1) in
    let eb0 := row V (coeff E (EdgeEdgeConstraint.edge1_index c) 0) in
    let eb1 := row V (coeff E (EdgeEdgeConstraint.edge1_index c) 1) in
    let dtype := edge_edge_distance_type ext ea0 ea1 eb0 eb1 in
    let d := edge_edge_distance ext ea0 ea1 eb0 eb1 dtype in
    let distance_grad :=
      edge_edge_distance_gradient ext ea0 ea1 eb0 eb1 dtype in
    let mollifier :=
      edge_edge_mollifier ext ea0 ea1 eb0 eb1 (EdgeEdgeConstraint.eps_x c) in
    let mollifier_grad :=
      edge_edge_mollifier_gradient ext ea0 ea1 eb0 eb1
        (EdgeEdgeConstraint.eps_x c) in
    EdgeEdgeConstraint.compute_potential_gradient ext c V E F dhat
    = vec_add
        (vec_scal mollifier_grad (Spec.B ext md d dhat))
        (scal_vec mollifier (scal_vec (Spec.B' ext md d dhat) distance_grad))
    /\ EdgeEdgeConstraint.compute_potential_gradient ext c V E F dhat
       = Spec.mollified_gradient ext md
           (Spec.mollifier ext V E c) (Spec.mollifier_grad ext V E c)
           (Spec.distance ext V E F (Virtual.EdgeEdge c))
           (Spec.distance_grad ext V E F (Virtual.EdgeEdge c)) dhat.
Proof.
  intros; split; reflexivity.
Qed.

(** C4.  For the four variants without a mollifier, whenever the
    asserted [hess_b >= 0] holds, the Hessian is
    [hess_b * distance_grad * distance_grad^T + grad_b * distance_hess]
    (times the multiplicity for VertexVertex and EdgeVertex); with
    [project_hessian_to_psd] the projection is applied to the addend
    [grad_b * distance_hess] alone and the first addend is left as it
    is. *)
Theorem unmollified_hessian_projects_second_addend_only :
  forall (ext : Collaborators) (o : Virtual.object)
         (V : MatrixXd) (E F : MatrixXi) (dhat : double),
    let md := Virtual.minimum_distance o in
    let d := Spec.distance ext V E F o in
    let distance_grad := Spec.distance_grad ext V E F o in
    let distance_hess := Spec.distance_hess ext V E F o in
    let grad_b := Spec.B' ext md d dhat in
    let hess_b := Spec.B'' ext md d dhat in
    Spec.unmollified o = true ->
    (0 <=? hess_b) = true ->
    Virtual.compute_potential_hessian ext o V E F dhat false
    = Ok (Spec.scaled_by_multiplicity o
            (mat_add (outer (scal_vec hess_b distance_grad) distance_grad)
                     (scal_mat grad_b distance_hess)))
    /\ Virtual.compute_potential_hessian ext o V E F dhat true
       = Ok (Spec.scaled_by_multiplicity o
               (mat_add (outer (scal_vec hess_b distance_grad) distance_grad)
                        (project_to_psd ext
                           (scal_mat grad_b distance_hess)))).
Proof.
  intros ext o V E F dhat md d distance_grad distance_hess grad_b hess_b
         Hvariant Hassert.
  destruct o as [c | c | c | c | c]; try discriminate Hvariant;
    cbn [Virtual.compute_potential_hessian];
    unfold VertexVertexConstraint.compute_potential_hessian,
           EdgeVertexConstraint.compute_potential_hessian,
           FaceVertexConstraint.compute_potential_hessian,
           PlaneVertexConstraint.compute_potential_hessian;
    cbv zeta;
    split; rewrite hessian_common_returns by exact Hassert; reflexivity.
Qed.

(** A run of C4: the sample vertex-vertex constraint at squared distance
    2 with [dhat = 2]. *)
Lemma unmollified_hessian_projects_second_addend_only_witness :
  Virtual.compute_potential_hessian Sample.collaborators
    (Virtual.VertexVertex Sample.vv) Sample.V Sample.E Sample.F 2 true
  = Ok [[48; 48; -0; -30; -48; -0]; [48; 48; -0; -48; -30; -0];
        [-0; -0; 0; 0; 0; 18]; [-30; -48; 0; 48; 48; 0];
        [-48; -30; 0; 48; 48; 0]; [-0; -0; 18; 0; 0; 0]].
Proof.
  refine (eq_trans
    (proj2 (unmollified_hessian_projects_second_addend_only
              Sample.collaborators (Virtual.VertexVertex Sample.vv)
              Sample.V Sample.E Sample.F 2 eq_refl _)) _).
  - vm_compute. reflexivity.
  - vm_compute. reflexivity.
Defined.

End AdapterProperties.

Section MultiplicityProperties.
Local Open Scope float_scope.

(** The adapter's potential and gradient are [B] and [B' * grad d]. *)
Lemma potential_common_is_B
    (ext : Collaborators) (md distance dhat : double) :
  CollisionConstraint.compute_potential_common ext md distance dhat
  = Spec.B ext md distance dhat.
Proof. reflexivity. Qed.

Lemma gradient_common_is_composition
    (ext : Collaborators) (md distance : double) (distance_grad : Vector)
    (dhat : double) :
  CollisionConstraint.compute_potential_gradient_common
    ext md distance distance_grad dhat
  = Spec.gradient_composition ext md distance distance_grad dhat.
Proof. reflexivity. Qed.

(** C7.  For a VertexVertex or EdgeVertex constraint of multiplicity [m],
    the potential is [m] times [B(d)], the gradient is [m] times
    [B'(d) * distance_grad], and the Hessian is [m] times the Hessian
    composition of the adapter, whenever that composition returns, that
    is, whenever the asserted [hess_b >= 0] holds or the assertion is
    compiled out by [NDEBUG] (in a build with assertions a false
    [hess_b >= 0] stops the call); [d], [distance_grad] and
    [distance_hess] are those of the variant's distance function. *)
Theorem multiplicity_scales_potential_gradient_hessian :
  forall (ext : Collaborators) (o : Virtual.object)
         (V : MatrixXd) (E F : MatrixXi) (dhat : double) (project : bool)
         (m : long),
    let md := Virtual.minimum_distance o in
    let d := Spec.distance ext V E F o in
    let distance_grad := Spec.distance_grad ext V E F o in
    let distance_hess := Spec.distance_hess ext V E F o in
    Spec.multiplicity_of o = Some m ->
    Virtual.compute_potential ext o V E F dhat
    = long_to_double m
      * CollisionConstraint.compute_potential_common ext md d dhat
    /\ Virtual.compute_potential ext o V E F dhat
       = long_to_double m * Spec.B ext md d dhat
    /\ Virtual.compute_potential_gradient ext o V E F dhat
       = scal_vec (long_to_double m)
           (CollisionConstraint.compute_potential_gradient_common
              ext md d distance_grad dhat)
    /\ Virtual.compute_potential_gradient ext o V E F dhat
       = scal_vec (long_to_double m)
           (Spec.gradient_composition ext md d distance_grad dhat)
    /\ (forall H : Matrix,
          CollisionConstraint.compute_potential_hessian_common
            ext md d distance_grad distance_hess dhat project = Ok H ->
          Virtual.compute_potential_hessian ext o V E F dhat project
          = Ok (scal_mat (long_to_double m) H))
    /\ ((0 <=? Spec.B'' ext md d dhat) = true ->
        Virtual.compute_potential_hessian ext o V E F dhat project
        = Ok (scal_mat (long_to_double m)
                (Spec.hessian_composition
                   ext md d distance_grad distance_hess dhat project)))
    /\ (NDEBUG ext = true ->
        Virtual.compute_potential_hessian ext o V E F dhat project
        = Ok (scal_mat (long_to_double m)
                (Spec.hessian_composition
                   ext md d distance_grad distance_hess dhat project)))
    /\ (NDEBUG ext = false ->
        (0 <=? Spec.B'' ext md d dhat) = false ->
        Virtual.compute_potential_hessian ext o V E F dhat project
        = Fail (assertion_failed "hess_b >= 0")).
Proof.
  intros ext o V E F dhat project m md d distance_grad distance_hess Hm.
  destruct o as [c | c | c | c | c]; try discriminate Hm;
    injection Hm as <-;
    (do 4 (split; [reflexivity |]));
    cbn [Virtual.compute_potential_hessian];
    unfold VertexVertexConstraint.compute_potential_hessian,
           EdgeVertexConstraint.compute_potential_hessian;
    cbv zeta;
    (split; [intros H HH;
             unfold md, d, distance_grad, distance_hess in HH;
             cbn [Virtual.minimum_distance Spec.distance
                  Spec.distance_grad Spec.distance_hess] in HH;
             rewrite HH; reflexivity |]);
    (split; [intros Hassert;
             rewrite hessian_common_returns by exact Hassert;
             reflexivity |]);
    (split; [intros Hbuild;
             rewrite hessian_common_unchecked by exact Hbuild;
             reflexivity |]);
    intros Hbuild Hassert;
    rewrite hessian_common_aborts by assumption; reflexivity.
Qed.

(** A run of C7: the sample vertex-vertex constraint has multiplicity 3;
    its potential at squared distance 2 with [dhat = 2] is [3 * 2], and
    its Hessian is returned. *)
Lemma multiplicity_scales_potential_gradient_hessian_witness :
  Virtual.compute_potential Sample.collaborators
    (Virtual.VertexVertex Sample.vv) Sample.V Sample.E Sample.F 2
  = 3 * 2
  /\ Virtual.compute_potential_hessian Sample.collaborators
       (Virtual.VertexVertex Sample.vv) Sample.V Sample.E Sample.F 2 false
     = Ok [[30; 48; -0; -30; -48; -0]; [48; 30; -0; -48; -30; -0];
           [-0; -0; -18; 0; 0; 18]; [-30; -48; 0; 30; 48; 0];
           [-48; -30; 0; 48; 30; 0]; [-0; -0; 18; 0; 0; -18]].
Proof.
  destruct (multiplicity_scales_potential_gradient_hessian
              Sample.collaborators (Virtual.VertexVertex Sample.vv)
              Sample.V Sample.E Sample.F 2 false 3%Z eq_refl)
    as (_ & Hpot & _ & _ & _ & Hhess & _ & _).
  split.
  - exact (eq_trans Hpot eq_refl).
  - refine (eq_trans (Hhess _) _); vm_compute; reflexivity.
Defined.

End MultiplicityProperties.

(* ================================================================== *)
(** ** The container *)

Section ContainerProperties.
Local Open Scope Z_scope.

Lemma vector_size_nonneg {A : Type} (v : list A) : 0 <= vector_size v.
Proof. unfold vector_size. lia. Qed.

Lemma size_modulus_pos : 0 < size_modulus.
Proof. reflexivity. Qed.

Lemma size_sub_no_wrap (a b : Z) :
  0 <= b <= a -> a < size_modulus -> size_sub a b = a - b.
Proof. intros H1 H2. unfold size_sub. apply Z.mod_small. lia. Qed.

(** The accumulation loop of [num_constraints] adds the multiplicities
    modulo [2^64]. *)
Lemma accumulate_multiplicities {A : Type} (m : A -> Z) (l : list A) :
  forall n : Z,
    0 <= n < size_modulus ->
    fold_left (fun n x => size_add n (to_size_t (m x))) l n
    = (n + Spec.multiplicity_sum m l) mod size_modulus.
Proof.
  induction l as [| x l IH]; intros n Hn; cbn [fold_left Spec.multiplicity_sum fold_right].
  - rewrite Z.add_0_r. symmetry. now apply Z.mod_small.
  - rewrite IH.
    + unfold size_add, to_size_t.
      rewrite Zplus_mod_idemp_r, Zplus_mod_idemp_l.
      f_equal. unfold Spec.multiplicity_sum. lia.
    + unfold size_add. apply Z.mod_pos_bound. exact size_modulus_pos.
Qed.

(** [size()] is the instance count modulo [2^64]. *)
Lemma size_is_instance_count_mod (c : Constraints.t) :
  Constraints.size c = Spec.instance_count c mod size_modulus.
Proof.
  unfold Constraints.size, Spec.instance_count.
  generalize (vector_size (Constraints.vv_constraints c))
             (vector_size (Constraints.ev_constraints c))
             (vector_size (Constraints.ee_constraints c))
             (vector_size (Constraints.fv_constraints c))
             (vector_size (Constraints.pv_constraints c)).
  intros a b x y z. size_arith.
Qed.

(** [num_constraints()] is the multiplicity-weighted count modulo
    [2^64]. *)
Lemma num_constraints_is_weighted_count_mod (c : Constraints.t) :
  Constraints.num_constraints c = Spec.weighted_count c mod size_modulus.
Proof.
  unfold Constraints.num_constraints, Spec.weighted_count. cbv zeta.
  rewrite (accumulate_multiplicities _ (Constraints.vv_constraints c) 0)
    by (split; [lia | exact size_modulus_pos]).
  rewrite accumulate_multiplicities
    by (apply Z.mod_pos_bound; exact size_modulus_pos).
  generalize (Spec.multiplicity_sum VertexVertexConstraint.multiplicity
                (Constraints.vv_constraints c))
             (Spec.multiplicity_sum EdgeVertexConstraint.multiplicity
                (Constraints.ev_constraints c))
             (vector_size (Constraints.ee_constraints c))
             (vector_size (Constraints.fv_constraints c))
             (vector_size (Constraints.pv_constraints c)).
  intros a b x y z. size_arith.
Qed.

Lemma size_in_range (c : Constraints.t) : is_size_t (Constraints.size c).
Proof.
  rewrite size_is_instance_count_mod. unfold is_size_t.
  apply Z.mod_pos_bound. exact size_modulus_pos.
Qed.

Lemma size_no_wrap (c : Constraints.t) :
  Constraints.fits_address_space c ->
  Constraints.size c = Spec.instance_count c.
Proof.
  intros Hfit. rewrite size_is_instance_count_mod.
  apply Z.mod_small. unfold Constraints.fits_address_space in Hfit.
  unfold Spec.instance_count.
  pose proof (vector_size_nonneg (Constraints.vv_constraints c)).
  pose proof (vector_size_nonneg (Constraints.ev_constraints c)).
  pose proof (vector_size_nonneg (Constraints.ee_constraints c)).
  pose proof (vector_size_nonneg (Constraints.fv_constraints c)).
  pose proof (vector_size_nonneg (Constraints.pv_constraints c)).
  lia.
Qed.

(** With multiplicities of at least 1 a sequence weighs at least its
    length, and exactly its length only when they are all 1. *)
Lemma multiplicity_sum_ge_size {A : Type} (m : A -> Z) (l : list A) :
  Forall (fun x => 1 <= m x) l ->
  vector_size l <= Spec.multiplicity_sum m l.
Proof.
  unfold vector_size.
  induction 1 as [| x l Hx Hl IH]; cbn [Spec.multiplicity_sum fold_right List.length].
  - lia.
  - unfold Spec.multiplicity_sum in IH. lia.
Qed.

Lemma multiplicity_sum_eq_size {A : Type} (m : A -> Z) (l : list A) :
  Forall (fun x => 1 <= m x) l ->
  (Spec.multiplicity_sum m l = vector_size l <-> Forall (fun x => m x = 1) l).
Proof.
  unfold vector_size.
  induction 1 as [| x l Hx Hl IH]; cbn [Spec.multiplicity_sum fold_right List.length].
  - split; [constructor | reflexivity].
  - pose proof (multiplicity_sum_ge_size m l Hl) as Hge.
    unfold vector_size, Spec.multiplicity_sum in *.
    split.
    + intros Heq. constructor; [lia |]. apply IH. lia.
    + intros Hall. inversion Hall as [| ? ? H1 Hrest]; subst.
      apply IH in Hrest. lia.
Qed.

(** C5 (amended).  When every VertexVertex and EdgeVertex multiplicity
    is at least 1 and the multiplicity-weighted count is below [2^64]
    (the [size_t] accumulator does not wrap): [size()] is the sum of the
    five lengths, [num_constraints()] is the sum of the multiplicities
    plus the numbers of EdgeEdge, FaceVertex and PlaneVertex instances,
    [num_constraints() >= size()], and the two are equal exactly when
    every multiplicity is 1. *)
Theorem num_constraints_at_least_size :
  forall c : Constraints.t,
    Spec.multiplicities (fun m => 1 <= m) c ->
    Spec.weighted_count c < size_modulus ->
    Constraints.size c = Spec.instance_count c
    /\ Constraints.num_constraints c = Spec.weighted_count c
    /\ Constraints.size c <= Constraints.num_constraints c
    /\ (Constraints.num_constraints c = Constraints.size c
        <-> Spec.multiplicities (fun m => m = 1) c).
Proof.
  intros c [Hvv Hev] Hbound.
  pose proof (multiplicity_sum_ge_size _ _ Hvv) as Gvv.
  pose proof (multiplicity_sum_ge_size _ _ Hev) as Gev.
  pose proof (multiplicity_sum_eq_size _ _ Hvv) as Evv.
  pose proof (multiplicity_sum_eq_size _ _ Hev) as Eev.
  pose proof (vector_size_nonneg (Constraints.vv_constraints c)).
  pose proof (vector_size_nonneg (Constraints.ev_constraints c)).
  pose proof (vector_size_nonneg (Constraints.ee_constraints c)).
  pose proof (vector_size_nonneg (Constraints.fv_constraints c)).
  pose proof (vector_size_nonneg (Constraints.pv_constraints c)).
  assert (Hsize : Constraints.size c = Spec.instance_count c).
  { rewrite size_is_instance_count_mod. apply Z.mod_small.
    unfold Spec.instance_count, Spec.weighted_count in *. lia. }
  assert (Hnum : Constraints.num_constraints c = Spec.weighted_count c).
  { rewrite num_constraints_is_weighted_count_mod. apply Z.mod_small.
    unfold Spec.weighted_count in *. lia. }
  rewrite Hsize, Hnum.
  unfold Spec.instance_count, Spec.weighted_count, Spec.multiplicities in *.
  repeat split; try lia.
  - apply Evv. lia.
  - apply Eev. lia.
  - intros [Avv Aev]. apply Evv in Avv. apply Eev in Aev. lia.
Qed.

(** A run of C5 (amended) on the container with one constraint of each
    variant: 5 instances, 3 + 2 + 1 + 1 + 1 = 8 constraints. *)
Lemma num_constraints_at_least_size_witness :
  Constraints.size Sample.one_of_each = 5
  /\ Constraints.num_constraints Sample.one_of_each = 8
  /\ Constraints.size Sample.one_of_each
     <= Constraints.num_constraints Sample.one_of_each.
Proof.
  assert (Hm : Spec.multiplicities (fun m => 1 <= m) Sample.one_of_each).
  { split; repeat constructor; discriminate. }
  assert (Hb : Spec.weighted_count Sample.one_of_each < size_modulus)
    by reflexivity.
  destruct (num_constraints_at_least_size Sample.one_of_each Hm Hb)
    as (Hs & Hn & Hle & _).
  split; [exact Hs | split; [exact Hn | exact Hle]].
Defined.

(** C5, as stated, fails: three vertex-vertex constraints with the
    [long] multiplicities [2^63 - 1], [2^63 - 1] and [2] weigh [2^64];
    the [size_t] accumulator wraps, [num_constraints()] returns 0 and
    [size()] returns 3. *)
Lemma num_constraints_wraps_below_size :
  Spec.multiplicities (fun m => 1 <= m /\ is_long m) Sample.heavy
  /\ Spec.weighted_count Sample.heavy = size_modulus
  /\ Constraints.size Sample.heavy = 3
  /\ Constraints.num_constraints Sample.heavy = 0
  /\ ~ (Constraints.size Sample.heavy
        <= Constraints.num_constraints Sample.heavy)
  /\ Constraints.num_constraints Sample.heavy
     <> Spec.weighted_count Sample.heavy.
Proof.
  split.
  { split; repeat constructor; unfold is_long; cbn; lia. }
  split; [reflexivity |].
  split; [reflexivity |].
  split; [reflexivity |].
  split.
  - change (~ (3 <= 0)). lia.
  - discriminate.
Qed.

Lemma vector_empty_iff {A : Type} (v : list A) :
  Constraints.vector_empty v = true <-> v = [].
Proof. destruct v; split; intros H; try reflexivity; discriminate. Qed.

Lemma vector_size_zero_iff {A : Type} (v : list A) :
  vector_size v = 0 <-> v = [].
Proof.
  unfold vector_size. destruct v; cbn [List.length]; split; intros H;
    try reflexivity; try discriminate; lia.
Qed.

Lemma empty_iff_all_sequences_empty (c : Constraints.t) :
  Constraints.empty c = true <-> Spec.all_sequences_empty c.
Proof.
  unfold Constraints.empty, Spec.all_sequences_empty.
  rewrite !andb_true_iff, !vector_empty_iff. tauto.
Qed.

(** C10.  [empty()] is true exactly when the five sequences are empty,
    which is exactly when [size()] is 0; after [clear()], [empty()] is
    true and [size()] and [num_constraints()] are 0. *)
Theorem empty_iff_size_zero_and_clear_empties :
  forall c : Constraints.t,
    Constraints.fits_address_space c ->
    (Constraints.empty c = true <-> Spec.all_sequences_empty c)
    /\ (Constraints.empty c = true <-> Constraints.size c = 0)
    /\ Constraints.empty (Constraints.clear c) = true
    /\ Constraints.size (Constraints.clear c) = 0
    /\ Constraints.num_constraints (Constraints.clear c) = 0.
Proof.
  intros c Hfit.
  split; [apply empty_iff_all_sequences_empty |].
  split; [| repeat split; reflexivity].
  rewrite empty_iff_all_sequences_empty, (size_no_wrap c Hfit).
  unfold Spec.all_sequences_empty, Spec.instance_count.
  rewrite <- !vector_size_zero_iff.
  pose proof (vector_size_nonneg (Constraints.vv_constraints c)).
  pose proof (vector_size_nonneg (Constraints.ev_constraints c)).
  pose proof (vector_size_nonneg (Constraints.ee_constraints c)).
  pose proof (vector_size_nonneg (Constraints.fv_constraints c)).
  pose proof (vector_size_nonneg (Constraints.pv_constraints c)).
  lia.
Qed.

(** A run of C10 on the container with one constraint of each variant:
    it is not empty, and it is after [clear()]. *)
Lemma empty_iff_size_zero_and_clear_empties_witness :
  Constraints.empty Sample.one_of_each = false
  /\ (Constraints.empty Sample.one_of_each = true
      <-> Constraints.size Sample.one_of_each = 0)
  /\ Constraints.empty (Constraints.clear Sample.one_of_each) = true
  /\ Constraints.size (Constraints.clear Sample.one_of_each) = 0
  /\ Constraints.num_constraints (Constraints.clear Sample.one_of_each) = 0.
Proof.
  split; [reflexivity |].
  apply (empty_iff_size_zero_and_clear_empties Sample.one_of_each).
  reflexivity.
Defined.

Lemma vector_at_in_range {A : Type} (v : list A) (i : Z) :
  0 <= i < vector_size v -> exists x, vector_at v i = Some x.
Proof.
  unfold vector_at, vector_size. intros Hi.
  destruct (nth_error v (Z.to_nat i)) as [x |] eqn:Hnth.
  - now exists x.
  - apply nth_error_None in Hnth. lia.
Qed.

(** Indexing a concatenation whose first part is a mapped vector. *)
Lemma nth_error_app_map {A B : Type} (f : A -> B) (l : list A)
      (rest : list B) (i : Z) :
  0 <= i ->
  nth_error (map f l ++ rest) (Z.to_nat i)
  = if i <? vector_size l then option_map f (vector_at l i)
    else nth_error rest (Z.to_nat (i - vector_size l)).
Proof.
  intros Hi. unfold vector_size, vector_at.
  destruct (Z.ltb_spec i (Z.of_nat (List.length l))) as [Hlt | Hge].
  - rewrite nth_error_app1 by (rewrite length_map; lia).
    apply nth_error_map.
  - rewrite nth_error_app2 by (rewrite length_map; lia).
    rewrite length_map. f_equal. lia.
Qed.

(** The range subtraction, on a container that fits the address space and
    an index of type [size_t]: a reference is returned exactly below the
    instance count, and it designates the element of the concatenation at
    the index. *)
Lemma bounds_checked_lookup_spec (c : Constraints.t) (idx : size_t) :
  Constraints.fits_address_space c ->
  is_size_t idx ->
  match Spec.bounds_checked_lookup c idx with
  | Ok r =>
      idx < Spec.instance_count c
      /\ exists o, Constraints.deref c r = Some o
                  /\ nth_error (Spec.concatenation c) (Z.to_nat idx) = Some o
  | Fail f => f = Constraints.index_error /\ Spec.instance_count c <= idx
  end.
Proof.
  destruct c as [vv ev ee fv pv].
  unfold Constraints.fits_address_space, is_size_t, Spec.instance_count,
         Spec.bounds_checked_lookup, Spec.concatenation.
  cbn [Constraints.vv_constraints Constraints.ev_constraints
       Constraints.ee_constraints Constraints.fv_constraints
       Constraints.pv_constraints].
  intros Hfit Hidx. cbv zeta.
  pose proof (vector_size_nonneg vv) as Hvv.
  pose proof (vector_size_nonneg ev) as Hev.
  pose proof (vector_size_nonneg ee) as Hee.
  pose proof (vector_size_nonneg fv) as Hfv.
  pose proof (vector_size_nonneg pv) as Hpv.
  rewrite (nth_error_app_map _ vv) by lia.
  destruct (Z.ltb_spec idx (vector_size vv)) as [H1 | H1].
  { split; [lia |].
    destruct (vector_at_in_range vv idx) as [x Hx]; [lia |].
    exists (Virtual.VertexVertex x). cbn [Constraints.deref Constraints.vv_constraints].
    rewrite Hx. split; reflexivity. }
  rewrite (size_sub_no_wrap idx) by lia.
  rewrite (nth_error_app_map _ ev) by lia.
  destruct (Z.ltb_spec (idx - vector_size vv) (vector_size ev)) as [H2 | H2].
  { split; [lia |].
    destruct (vector_at_in_range ev (idx - vector_size vv)) as [x Hx]; [lia |].
    exists (Virtual.EdgeVertex x). cbn [Constraints.deref Constraints.ev_constraints].
    rewrite Hx. split; reflexivity. }
  rewrite (size_sub_no_wrap (idx - vector_size vv)) by lia.
  rewrite (nth_error_app_map _ ee) by lia.
  destruct (Z.ltb_spec (idx - vector_size vv - vector_size ev)
                       (vector_size ee)) as [H3 | H3].
  { split; [lia |].
    destruct (vector_at_in_range ee (idx - vector_size vv - vector_size ev))
      as [x Hx]; [lia |].
    exists (Virtual.EdgeEdge x). cbn [Constraints.deref Constraints.ee_constraints].
    rewrite Hx. split; reflexivity. }
  rewrite (size_sub_no_wrap (idx - vector_size vv - vector_size ev)) by lia.
  rewrite (nth_error_app_map _ fv) by lia.
  destruct (Z.ltb_spec (idx - vector_size vv - vector_size ev - vector_size ee)
                       (vector_size fv)) as [H4 | H4].
  { split; [lia |].
    destruct (vector_at_in_range fv
                (idx - vector_size vv - vector_size ev - vector_size ee))
      as [x Hx]; [lia |].
    exists (Virtual.FaceVertex x). cbn [Constraints.deref Constraints.fv_constraints].
    rewrite Hx. split; reflexivity. }
  rewrite (size_sub_no_wrap
             (idx - vector_size vv - vector_size ev - vector_size ee)) by lia.
  destruct (Z.ltb_spec
              (idx - vector_size vv - vector_size ev - vector_size ee
               - vector_size fv)
              (vector_size pv)) as [H5 | H5].
  { split; [lia |].
    destruct (vector_at_in_range pv
                (idx - vector_size vv - vector_size ev - vector_size ee
                 - vector_size fv))
      as [x Hx]; [lia |].
    exists (Virtual.PlaneVertex x). cbn [Constraints.deref Constraints.pv_constraints].
    rewrite nth_error_map. fold (vector_at pv
                (idx - vector_size vv - vector_size ev - vector_size ee
                 - vector_size fv)).
    rewrite Hx. split; reflexivity. }
  split; [reflexivity | lia].
Qed.

(** On an index of type [size_t] the first [if] is not taken. *)
Lemma index_is_negative_false (idx : size_t) :
  is_size_t idx -> Constraints.index_is_negative idx = false.
Proof.
  unfold is_size_t, Constraints.index_is_negative. intros H.
  apply Z.ltb_ge. lia.
Qed.

Lemma operator_index_const_unguarded (c : Constraints.t) (idx : size_t) :
  is_size_t idx ->
  Constraints.operator_index_const c idx = Spec.bounds_checked_lookup c idx.
Proof.
  intros H. unfold Constraints.operator_index_const.
  rewrite (index_is_negative_false idx H). reflexivity.
Qed.

(** C6.  On a container that fits the address space and an index [idx]
    of type [size_t]: below [size()] the operator returns a reference to
    the [idx]-th element of the concatenation VertexVertex, EdgeVertex,
    EdgeEdge, FaceVertex, PlaneVertex; it throws the out-of-range error
    exactly when [idx >= size()], in particular at [size()]; and the
    container after the call is the container before it. *)
Theorem operator_index_traverses_concatenation :
  forall (c : Constraints.t) (idx : size_t),
    Constraints.fits_address_space c ->
    is_size_t idx ->
    (idx < Constraints.size c ->
     exists r o,
       Constraints.operator_index c idx = (Ok r, c)
       /\ Constraints.operator_index_const c idx = Ok r
       /\ Constraints.deref c r = Some o
       /\ nth_error (Spec.concatenation c) (Z.to_nat idx) = Some o)
    /\ (Constraints.size c <= idx
        <-> Constraints.operator_index c idx
            = (Fail Constraints.index_error, c))
    /\ (Constraints.size c <= idx
        <-> Constraints.operator_index_const c idx
            = Fail Constraints.index_error)
    /\ Constraints.operator_index c (Constraints.size c)
       = (Fail Constraints.index_error, c)
    /\ snd (Constraints.operator_index c idx) = c.
Proof.
  intros c idx Hfit Hidx.
  assert (Hconst : forall i, is_size_t i ->
            (i < Constraints.size c ->
             exists r o,
               Constraints.operator_index_const c i = Ok r
               /\ Constraints.deref c r = Some o
               /\ nth_error (Spec.concatenation c) (Z.to_nat i) = Some o)
            /\ (Constraints.size c <= i
                <-> Constraints.operator_index_const c i
                    = Fail Constraints.index_error)).
  { intros i Hi.
    rewrite (operator_index_const_unguarded c i Hi), (size_no_wrap c Hfit).
    pose proof (bounds_checked_lookup_spec c i Hfit Hi) as Hspec.
    destruct (Spec.bounds_checked_lookup c i) as [r | f].
    - destruct Hspec as [Hlt (o & Hd & Hn)]. split.
      + intros _. exists r, o. repeat split; assumption.
      + split; [lia | discriminate].
    - destruct Hspec as [-> Hge]. split.
      + lia.
      + split; [reflexivity | intros _; exact Hge]. }
  destruct (Hconst idx Hidx) as [Hin Hout].
  unfold Constraints.operator_index.
  split; [| split; [| split; [exact Hout | split; [| reflexivity]]]].
  - intros Hlt. destruct (Hin Hlt) as (r & o & Hr & Hd & Hn).
    exists r, o. rewrite Hr. repeat split; assumption.
  - rewrite Hout. split.
    + intros ->. reflexivity.
    + intros Heq. now injection Heq.
  - destruct (Hconst (Constraints.size c) (size_in_range c)) as [_ Hsz].
    rewrite (proj1 Hsz) by lia. reflexivity.
Qed.

(** A run of C6 on the container with one constraint of each variant:
    flat index 5, its size, is refused and the container is kept. *)
Lemma operator_index_traverses_concatenation_witness :
  Constraints.operator_index Sample.one_of_each 5
  = (Fail Constraints.index_error, Sample.one_of_each).
Proof.
  assert (Hfit : Constraints.fits_address_space Sample.one_of_each)
    by reflexivity.
  assert (Hidx : is_size_t 5) by (split; [discriminate | reflexivity]).
  destruct (operator_index_traverses_concatenation
              Sample.one_of_each 5 Hfit Hidx) as (_ & Hraise & _).
  apply Hraise. discriminate.
Defined.

(** C9.  For every value of the unsigned index the condition [idx < 0] is
    false: the first [throw] is never reached, the operator behaves as
    its body without that [if], and a failure can only be the final
    bounds check, which fails at [idx >= size()]. *)
Theorem negative_index_branch_is_dead :
  forall (c : Constraints.t) (idx : size_t),
    is_size_t idx ->
    Constraints.index_is_negative idx = false
    /\ Constraints.operator_index_const c idx
       = Spec.bounds_checked_lookup c idx
    /\ Constraints.operator_index c idx
       = (Spec.bounds_checked_lookup c idx, c)
    /\ (Constraints.fits_address_space c ->
        forall f : failure,
          Constraints.operator_index_const c idx = Fail f ->
          f = Constraints.index_error /\ Constraints.size c <= idx).
Proof.
  intros c idx Hidx.
  split; [exact (index_is_negative_false idx Hidx) |].
  split; [exact (operator_index_const_unguarded c idx Hidx) |].
  split.
  - unfold Constraints.operator_index.
    now rewrite (operator_index_const_unguarded c idx Hidx).
  - intros Hfit f Hfail.
    rewrite (operator_index_const_unguarded c idx Hidx) in Hfail.
    pose proof (bounds_checked_lookup_spec c idx Hfit Hidx) as Hspec.
    rewrite Hfail in Hspec. rewrite (size_no_wrap c Hfit). exact Hspec.
Qed.

(** A run of C9 at the largest index, [2^64 - 1], which is what a caller
    passing [-1] hands to the operator. *)
Lemma negative_index_branch_is_dead_witness :
  Constraints.index_is_negative (to_size_t (-1)) = false
  /\ Constraints.operator_index_const Sample.one_of_each (to_size_t (-1))
     = Spec.bounds_checked_lookup Sample.one_of_each (to_size_t (-1)).
Proof.
  assert (Hidx : is_size_t (to_size_t (-1)))
    by (split; [discriminate | reflexivity]).
  destruct (negative_index_branch_is_dead
              Sample.one_of_each (to_size_t (-1)) Hidx) as (Hdead & Hsame & _).
  split; [exact Hdead | exact Hsame].
Defined.

End ContainerProperties.

(* ================================================================== *)
(** ** The smooth friction mollifier functions *)

Section FrictionProperties.
Local Open Scope Q_scope.
Import Friction.

Lemma checked_div_nonzero (a b : Q) :
  ~ b == 0 -> checked_div a b = Some (a / b).
Proof.
  intros Hb. unfold checked_div.
  destruct (Qeq_bool b 0) eqn:Heq; [| reflexivity].
  apply Qeq_bool_iff in Heq. contradiction.
Qed.

Lemma checked_div_zero (a b : Q) :
  b == 0 -> checked_div a b = None.
Proof.
  intros Hb. unfold checked_div.
  apply Qeq_bool_iff in Hb. now rewrite Hb.
Qed.

Lemma inside_branch (s epsv : Q) :
  Qabs s < epsv -> outside s epsv = false.
Proof.
  intros Hlt. unfold outside.
  destruct (Qle_bool epsv (Qabs s)) eqn:Hle; [| reflexivity].
  apply Qle_bool_iff in Hle. lra.
Qed.

Lemma square_nonzero (epsv : Q) : 0 < epsv -> ~ epsv * epsv == 0.
Proof. intros Hpos Hzero. nra. Qed.

(** C8 (amended).  For [epsv > 0] and [|s| < epsv], [s = 0] included,
    [f0] and [f1_over_x] divide by [3 epsv^2], [epsv], [3] and [epsv^2],
    none of which is zero, and return their closed forms.  The third
    function divides by [s epsv^2]: it returns its closed form for
    [s <> 0], and at [s = 0] the divisor is zero. *)
Theorem friction_inside_branch_divisions :
  forall s epsv : Q,
    0 < epsv ->
    Qabs s < epsv ->
    smooth_friction_f0 s epsv
    = Some (- (s * s * s / (3 * (epsv * epsv))) + s * s / epsv + epsv / 3)
    /\ smooth_friction_f1_over_x s epsv
       = Some (- (s / (epsv * epsv)) + 2 / epsv)
    /\ (~ s == 0 ->
        smooth_friction_f2_x_minus_f1_over_x3 s epsv
        = Some (- (1 / (s * (epsv * epsv)))))
    /\ (s == 0 <-> smooth_friction_f2_x_minus_f1_over_x3 s epsv = None).
Proof.
  intros s epsv Hpos Hin.
  pose proof (square_nonzero epsv Hpos) as Hsq.
  assert (H3sq : ~ 3 * (epsv * epsv) == 0) by (intros H; lra).
  assert (Heps : ~ epsv == 0) by (intros H; lra).
  assert (H3 : ~ 3 == 0) by (intros H; lra).
  unfold smooth_friction_f0, smooth_friction_f1_over_x,
         smooth_friction_f2_x_minus_f1_over_x3.
  rewrite (inside_branch s epsv Hin).
  rewrite !(checked_div_nonzero _ _ H3sq), !(checked_div_nonzero _ _ Heps),
          !(checked_div_nonzero _ _ H3), !(checked_div_nonzero _ _ Hsq).
  cbn [and_then].
  split; [reflexivity | split; [reflexivity |]].
  assert (Hprod : s * (epsv * epsv) == 0 <-> s == 0).
  { split.
    - intros H. destruct (Qmult_integral _ _ H) as [H0 | H0];
        [exact H0 | contradiction].
    - intros H. rewrite H. ring. }
  split.
  - intros Hs. rewrite checked_div_nonzero by (rewrite Hprod; exact Hs).
    reflexivity.
  - split.
    + intros Hs. rewrite checked_div_zero by (rewrite Hprod; exact Hs).
      reflexivity.
    + intros Hnone.
      destruct (Qeq_dec s 0) as [Hs | Hs]; [exact Hs |].
      rewrite checked_div_nonzero in Hnone by (rewrite Hprod; exact Hs).
      discriminate.
Qed.

(** A run of C8 (amended) at rest, [s = 0], with [epsv = 1]: [f0] is
    [1/3] and [f1_over_x] is [2]. *)
Lemma friction_inside_branch_divisions_witness :
  smooth_friction_f0 0 1
  = Some (- (0 * 0 * 0 / (3 * (1 * 1))) + 0 * 0 / 1 + 1 / 3)
  /\ smooth_friction_f1_over_x 0 1 = Some (- (0 / (1 * 1)) + 2 / 1).
Proof.
  assert (Hpos : 0 < 1) by reflexivity.
  assert (Hin : Qabs 0 < 1) by reflexivity.
  destruct (friction_inside_branch_divisions 0 1 Hpos Hin)
    as (H0 & H1 & _).
  split; [exact H0 | exact H1].
Defined.

(** C8, as stated, fails: at [s = 0] with [epsv = 1] the inside branch of
    the third function is taken and its divisor [s epsv^2] is zero. *)
Lemma friction_third_function_divides_by_zero_at_rest :
  0 < 1
  /\ Qabs 0 < 1
  /\ outside 0 1 = false
  /\ 0 * (1 * 1) == 0
  /\ smooth_friction_f2_x_minus_f1_over_x3 0 1 = None.
Proof.
  repeat split.
Qed.

(** On the outside branch, [|s| >= epsv > 0], no divisor is zero. *)
Lemma friction_outside_branch_divisions (s epsv : Q) :
  0 < epsv ->
  epsv <= Qabs s ->
  smooth_friction_f0 s epsv = Some s
  /\ smooth_friction_f1_over_x s epsv = Some (1 / s)
  /\ smooth_friction_f2_x_minus_f1_over_x3 s epsv
     = Some (- (1 / (s * s * s))).
Proof.
  intros Hpos Hout.
  assert (Hs : ~ s == 0).
  { intros H. rewrite H in Hout. change (Qabs 0) with 0 in Hout. lra. }
  assert (Hcube : ~ s * s * s == 0).
  { intros H. destruct (Qmult_integral _ _ H) as [H0 | H0];
      [destruct (Qmult_integral _ _ H0) |]; contradiction. }
  unfold smooth_friction_f0, smooth_friction_f1_over_x,
         smooth_friction_f2_x_minus_f1_over_x3, outside.
  apply Qle_bool_iff in Hout. rewrite Hout.
  rewrite (checked_div_nonzero _ _ Hs), (checked_div_nonzero _ _ Hcube).
  repeat split.
Qed.

End FrictionProperties.

(* ================================================================== *)
(** * Further properties of the container *)

(** One step of the range subtraction of [operator[]], when the index is
    past the current vector and when it is inside it. *)
Ltac past_vector :=
  rewrite (proj2 (Z.ltb_ge _ _)) by lia;
  rewrite size_sub_no_wrap by lia.
Ltac inside_vector :=
  rewrite (proj2 (Z.ltb_lt _ _)) by lia.

Section ContainerFurther.
Local Open Scope Z_scope.

Lemma all_ones_weigh_their_length {A : Type} (m : A -> Z) (l : list A) :
  Forall (fun x => m x = 1) l -> Spec.multiplicity_sum m l = vector_size l.
Proof.
  intros Hall. apply multiplicity_sum_eq_size; [| exact Hall].
  eapply Forall_impl; [| exact Hall]. cbv beta. intros x Hx. lia.
Qed.

(** X1.  For every state of the container, whatever the multiplicities
    (zero, negative and huge ones included), [size()] is the number of
    instances modulo [2^64] and [num_constraints()] is the sum of the
    multiplicities plus the EdgeEdge, FaceVertex and PlaneVertex
    instances, modulo [2^64]; when every multiplicity is 1 the two
    functions return the same value. *)
Theorem counts_are_sums_modulo_two_to_the_64 :
  forall c : Constraints.t,
    Constraints.size c = Spec.instance_count c mod size_modulus
    /\ Constraints.num_constraints c = Spec.weighted_count c mod size_modulus
    /\ is_size_t (Constraints.size c)
    /\ is_size_t (Constraints.num_constraints c)
    /\ (Spec.multiplicities (fun m => m = 1) c ->
        Constraints.num_constraints c = Constraints.size c).
Proof.
  intros c.
  split; [apply size_is_instance_count_mod |].
  split; [apply num_constraints_is_weighted_count_mod |].
  split; [apply size_in_range |].
  split.
  - rewrite num_constraints_is_weighted_count_mod. unfold is_size_t.
    apply Z.mod_pos_bound. exact size_modulus_pos.
  - intros [Hvv Hev].
    rewrite size_is_instance_count_mod, num_constraints_is_weighted_count_mod.
    unfold Spec.weighted_count, Spec.instance_count.
    rewrite (all_ones_weigh_their_length _ _ Hvv),
            (all_ones_weigh_their_length _ _ Hev).
    reflexivity.
Qed.

(** The flat index of an existing element is below the instance count. *)
Lemma flat_index_in_range (c : Constraints.t) (r : Constraints.reference) :
  Shape.in_bounds c r ->
  0 <= Shape.flat_index c r < Spec.instance_count c.
Proof.
  pose proof (vector_size_nonneg (Constraints.vv_constraints c)).
  pose proof (vector_size_nonneg (Constraints.ev_constraints c)).
  pose proof (vector_size_nonneg (Constraints.ee_constraints c)).
  pose proof (vector_size_nonneg (Constraints.fv_constraints c)).
  pose proof (vector_size_nonneg (Constraints.pv_constraints c)).
  unfold Spec.instance_count.
  destruct r as [i | i | i | i | i]; cbn [Shape.in_bounds Shape.flat_index];
    lia.
Qed.

(** X2.  Every element of every vector is reachable, at the index one
    expects: element [i] of [ev_constraints] is at flat index
    [vv_constraints.size() + i], element [i] of [ee_constraints] at
    [vv_constraints.size() + ev_constraints.size() + i], and so on; the
    operator returns a reference to exactly that element. *)
Theorem operator_index_reaches_every_element :
  forall (c : Constraints.t) (r : Constraints.reference),
    Constraints.fits_address_space c ->
    Shape.in_bounds c r ->
    is_size_t (Shape.flat_index c r)
    /\ Shape.flat_index c r < Constraints.size c
    /\ Constraints.operator_index_const c (Shape.flat_index c r) = Ok r
    /\ Constraints.operator_index c (Shape.flat_index c r) = (Ok r, c).
Proof.
  intros c r Hfit Hr.
  pose proof (flat_index_in_range c r Hr) as Hrange.
  assert (Hidx : is_size_t (Shape.flat_index c r)).
  { unfold is_size_t. unfold Constraints.fits_address_space in Hfit.
    unfold Spec.instance_count in Hrange. lia. }
  assert (Hok : Constraints.operator_index_const c (Shape.flat_index c r)
                = Ok r).
  { rewrite (operator_index_const_unguarded _ _ Hidx).
    unfold Spec.bounds_checked_lookup. cbv zeta.
    pose proof (vector_size_nonneg (Constraints.vv_constraints c)).
    pose proof (vector_size_nonneg (Constraints.ev_constraints c)).
    pose proof (vector_size_nonneg (Constraints.ee_constraints c)).
    pose proof (vector_size_nonneg (Constraints.fv_constraints c)).
    pose proof (vector_size_nonneg (Constraints.pv_constraints c)).
    unfold Constraints.fits_address_space in Hfit.
    destruct r as [i | i | i | i | i];
      cbn [Shape.in_bounds Shape.flat_index] in *.
    - inside_vector. reflexivity.
    - past_vector. inside_vector. do 2 f_equal. lia.
    - do 2 past_vector. inside_vector. do 2 f_equal. lia.
    - do 3 past_vector. inside_vector. do 2 f_equal. lia.
    - do 4 past_vector. inside_vector. do 2 f_equal. lia. }
  split; [exact Hidx |].
  split; [rewrite (size_no_wrap c Hfit); lia |].
  split; [exact Hok |].
  unfold Constraints.operator_index. now rewrite Hok.
Qed.

(** A run of X2 on the container with one constraint of each variant:
    its only face-vertex constraint is at flat index 3. *)
Lemma operator_index_reaches_every_element_witness :
  Constraints.operator_index_const Sample.one_of_each 3
  = Ok (Constraints.fv_at 0).
Proof.
  assert (Hfit : Constraints.fits_address_space Sample.one_of_each)
    by reflexivity.
  assert (Hr : Shape.in_bounds Sample.one_of_each (Constraints.fv_at 0))
    by (split; [discriminate | reflexivity]).
  destruct (operator_index_reaches_every_element
              Sample.one_of_each (Constraints.fv_at 0) Hfit Hr)
    as (_ & _ & Hok & _).
  exact Hok.
Defined.

(** What a returned reference tells about the index. *)
Lemma bounds_checked_lookup_inverse (c : Constraints.t) (idx : size_t)
      (r : Constraints.reference) :
  Constraints.fits_address_space c ->
  is_size_t idx ->
  Spec.bounds_checked_lookup c idx = Ok r ->
  Shape.in_bounds c r /\ Shape.flat_index c r = idx.
Proof.
  unfold Constraints.fits_address_space, is_size_t,
         Spec.bounds_checked_lookup.
  cbv zeta. intros Hfit Hidx.
  pose proof (vector_size_nonneg (Constraints.vv_constraints c)).
  pose proof (vector_size_nonneg (Constraints.ev_constraints c)).
  pose proof (vector_size_nonneg (Constraints.ee_constraints c)).
  pose proof (vector_size_nonneg (Constraints.fv_constraints c)).
  pose proof (vector_size_nonneg (Constraints.pv_constraints c)).
  destruct (Z.ltb_spec idx (vector_size (Constraints.vv_constraints c))).
  { intros Hr. injection Hr as <-.
    cbn [Shape.in_bounds Shape.flat_index]. lia. }
  rewrite size_sub_no_wrap by lia.
  destruct (Z.ltb_spec (idx - vector_size (Constraints.vv_constraints c))
                       (vector_size (Constraints.ev_constraints c))).
  { intros Hr. injection Hr as <-.
    cbn [Shape.in_bounds Shape.flat_index]. lia. }
  rewrite size_sub_no_wrap by lia.
  destruct (Z.ltb_spec
              (idx - vector_size (Constraints.vv_constraints c)
               - vector_size (Constraints.ev_constraints c))
              (vector_size (Constraints.ee_constraints c))).
  { intros Hr. injection Hr as <-.
    cbn [Shape.in_bounds Shape.flat_index]. lia. }
  rewrite size_sub_no_wrap by lia.
  destruct (Z.ltb_spec
              (idx - vector_size (Constraints.vv_constraints c)
               - vector_size (Constraints.ev_constraints c)
               - vector_size (Constraints.ee_constraints c))
              (vector_size (Constraints.fv_constraints c))).
  { intros Hr. injection Hr as <-.
    cbn [Shape.in_bounds Shape.flat_index]. lia. }
  rewrite size_sub_no_wrap by lia.
  destruct (Z.ltb_spec
              (idx - vector_size (Constraints.vv_constraints c)
               - vector_size (Constraints.ev_constraints c)
               - vector_size (Constraints.ee_constraints c)
               - vector_size (Constraints.fv_constraints c))
              (vector_size (Constraints.pv_constraints c))).
  { intros Hr. injection Hr as <-.
    cbn [Shape.in_bounds Shape.flat_index]. lia. }
  discriminate.
Qed.

(** X3.  [operator[]] never returns the same element for two indices: a
    returned reference names an existing element, the index is the flat
    index of that element, and two indices that yield the same reference
    are equal. *)
Theorem operator_index_is_injective :
  forall (c : Constraints.t) (i j : size_t) (r : Constraints.reference),
    Constraints.fits_address_space c ->
    is_size_t i ->
    is_size_t j ->
    Constraints.operator_index_const c i = Ok r ->
    (Shape.in_bounds c r /\ Shape.flat_index c r = i)
    /\ (Constraints.operator_index_const c j = Ok r -> i = j).
Proof.
  intros c i j r Hfit Hi Hj Hri.
  rewrite (operator_index_const_unguarded c i Hi) in Hri.
  destruct (bounds_checked_lookup_inverse c i r Hfit Hi Hri) as [Hb Hfi].
  split; [split; assumption |].
  intros Hrj. rewrite (operator_index_const_unguarded c j Hj) in Hrj.
  destruct (bounds_checked_lookup_inverse c j r Hfit Hj Hrj) as [_ Hfj].
  congruence.
Qed.

(** A run of X3 on the container with one constraint of each variant:
    index 4 yields the plane-vertex constraint, whose flat index is 4. *)
Lemma operator_index_is_injective_witness :
  Shape.flat_index Sample.one_of_each (Constraints.pv_at 0) = 4.
Proof.
  assert (Hfit : Constraints.fits_address_space Sample.one_of_each)
    by reflexivity.
  assert (H4 : is_size_t 4) by (split; [discriminate | reflexivity]).
  destruct (operator_index_is_injective
              Sample.one_of_each 4 4 (Constraints.pv_at 0)
              Hfit H4 H4 eq_refl) as [[_ Hflat] _].
  exact Hflat.
Defined.

Lemma cleared_fits (c : Constraints.t) :
  Constraints.fits_address_space (Constraints.clear c).
Proof. reflexivity. Qed.

(** X4.  After [clear()] every index is out of range: [operator[]]
    throws for each value of [size_t] and leaves the cleared container as
    it is. *)
Theorem operator_index_after_clear_always_throws :
  forall (c : Constraints.t) (idx : size_t),
    is_size_t idx ->
    Constraints.operator_index (Constraints.clear c) idx
    = (Fail Constraints.index_error, Constraints.clear c)
    /\ Constraints.operator_index_const (Constraints.clear c) idx
       = Fail Constraints.index_error.
Proof.
  intros c idx Hidx.
  assert (Hconst : Constraints.operator_index_const (Constraints.clear c) idx
                   = Fail Constraints.index_error).
  { rewrite (operator_index_const_unguarded _ _ Hidx).
    pose proof (bounds_checked_lookup_spec
                  (Constraints.clear c) idx (cleared_fits c) Hidx) as Hspec.
    destruct (Spec.bounds_checked_lookup (Constraints.clear c) idx)
      as [r | f].
    - destruct Hspec as [Hlt _]. unfold is_size_t in Hidx.
      change (Spec.instance_count (Constraints.clear c)) with 0 in Hlt. lia.
    - destruct Hspec as [-> _]. reflexivity. }
  split; [| exact Hconst].
  unfold Constraints.operator_index. now rewrite Hconst.
Qed.

(** A run of X4: the container with one constraint of each variant,
    cleared, refuses index 0. *)
Lemma operator_index_after_clear_always_throws_witness :
  Constraints.operator_index_const (Constraints.clear Sample.one_of_each) 0
  = Fail Constraints.index_error.
Proof.
  assert (H0 : is_size_t 0) by (split; [discriminate | reflexivity]).
  exact (proj2 (operator_index_after_clear_always_throws
                  Sample.one_of_each 0 H0)).
Defined.

(** X5.  A container is empty exactly when its first index is already
    out of range: [empty()] is true if and only if [operator[](0)]
    throws. *)
Theorem empty_iff_first_index_throws :
  forall c : Constraints.t,
    Constraints.fits_address_space c ->
    (Constraints.empty c = true
     <-> Constraints.operator_index_const c 0
         = Fail Constraints.index_error)
    /\ (Constraints.empty c = false
        <-> exists r, Constraints.operator_index_const c 0 = Ok r).
Proof.
  intros c Hfit.
  assert (H0 : is_size_t 0) by (split; [discriminate | reflexivity]).
  assert (Hempty : Constraints.empty c = true <-> Spec.instance_count c = 0).
  { rewrite empty_iff_all_sequences_empty.
    unfold Spec.all_sequences_empty, Spec.instance_count.
    rewrite <- !vector_size_zero_iff.
    pose proof (vector_size_nonneg (Constraints.vv_constraints c)).
    pose proof (vector_size_nonneg (Constraints.ev_constraints c)).
    pose proof (vector_size_nonneg (Constraints.ee_constraints c)).
    pose proof (vector_size_nonneg (Constraints.fv_constraints c)).
    pose proof (vector_size_nonneg (Constraints.pv_constraints c)).
    lia. }
  rewrite (operator_index_const_unguarded c 0 H0).
  pose proof (bounds_checked_lookup_spec c 0 Hfit H0) as Hspec.
  destruct (Spec.bounds_checked_lookup c 0) as [r | f].
  - destruct Hspec as [Hlt _].
    assert (Hne : Constraints.empty c = false).
    { destruct (Constraints.empty c) eqn:He; [| reflexivity].
      pose proof (proj1 Hempty eq_refl) as Hzero. lia. }
    rewrite Hne. split.
    + split; discriminate.
    + split; [intros _; now exists r | reflexivity].
  - destruct Hspec as [-> Hge].
    assert (He : Constraints.empty c = true).
    { apply Hempty.
      pose proof (vector_size_nonneg (Constraints.vv_constraints c)).
      pose proof (vector_size_nonneg (Constraints.ev_constraints c)).
      pose proof (vector_size_nonneg (Constraints.ee_constraints c)).
      pose proof (vector_size_nonneg (Constraints.fv_constraints c)).
      pose proof (vector_size_nonneg (Constraints.pv_constraints c)).
      unfold Spec.instance_count in *. lia. }
    rewrite He. split.
    + split; reflexivity.
    + split; [discriminate | intros [r Hr]; discriminate].
Qed.

(** A run of X5: the container with one constraint of each variant is
    not empty and its index 0 is the vertex-vertex constraint. *)
Lemma empty_iff_first_index_throws_witness :
  exists r, Constraints.operator_index_const Sample.one_of_each 0 = Ok r.
Proof.
  assert (Hfit : Constraints.fits_address_space Sample.one_of_each)
    by reflexivity.
  destruct (empty_iff_first_index_throws Sample.one_of_each Hfit)
    as [_ Hne].
  apply Hne. reflexivity.
Defined.

End ContainerFurther.

(* ================================================================== *)
(** * Further properties of the constraint variants *)

Section VariantsFurther.
Local Open Scope float_scope.

(** The Hessian of an unmollified variant, in both builds and on both
    sides of its assertion. *)
Lemma unmollified_hessian_total
    (ext : Collaborators) (o : Virtual.object)
    (V : MatrixXd) (E F : MatrixXi) (dhat : double) (project : bool) :
  Spec.unmollified o = true ->
  Virtual.compute_potential_hessian ext o V E F dhat project
  = if NDEBUG ext
       || (0 <=? Spec.B'' ext (Virtual.minimum_distance o)
                   (Spec.distance ext V E F o) dhat)
    then Ok (Spec.scaled_by_multiplicity o
               (Spec.hessian_composition ext (Virtual.minimum_distance o)
                  (Spec.distance ext V E F o)
                  (Spec.distance_grad ext V E F o)
                  (Spec.distance_hess ext V E F o) dhat project))
    else Fail (assertion_failed "hess_b >= 0").
Proof.
  intros Hvariant.
  destruct (NDEBUG ext) eqn:Hbuild;
    [| destruct (0 <=? Spec.B'' ext (Virtual.minimum_distance o)
                         (Spec.distance ext V E F o) dhat) eqn:Hassert];
    cbn [orb];
    destruct o as [c | c | c | c | c]; try discriminate Hvariant;
    cbn [Virtual.compute_potential_hessian];
    unfold VertexVertexConstraint.compute_potential_hessian,
           EdgeVertexConstraint.compute_potential_hessian,
           FaceVertexConstraint.compute_potential_hessian,
           PlaneVertexConstraint.compute_potential_hessian;
    cbv zeta;
    first [ rewrite hessian_common_unchecked by exact Hbuild
          | rewrite hessian_common_returns by exact Hassert
          | rewrite hessian_common_aborts by assumption ];
    reflexivity.
Qed.

Lemma zip_with_length {A B C : Type} (f : A -> B -> C) (n : nat) :
  forall (u : list A) (v : list B),
    List.length u = n -> List.length v = n ->
    List.length (zip_with f u v) = n.
Proof.
  induction n as [| n IH]; intros [| a u] [| b v] Hu Hv;
    try discriminate; cbn [zip_with List.length] in *.
  - reflexivity.
  - f_equal. apply IH; congruence.
Qed.

Lemma scal_vec_length (s : double) (v : Vector) :
  List.length (scal_vec s v) = List.length v.
Proof. apply length_map. Qed.

Lemma vec_scal_length (v : Vector) (s : double) :
  List.length (vec_scal v s) = List.length v.
Proof. apply length_map. Qed.

(** X7.  The gradient a constraint returns has as many entries as the
    distance gradient of its variant (for EdgeEdge, when the mollifier
    gradient has that many entries too): the multiplicity and the barrier
    derivative only scale it. *)
Theorem gradient_has_size_of_distance_gradient :
  forall (ext : Collaborators) (o : Virtual.object)
         (V : MatrixXd) (E F : MatrixXi) (dhat : double) (n : nat),
    List.length (Spec.distance_grad ext V E F o) = n ->
    match o with
    | Virtual.EdgeEdge c =>
        List.length (Spec.mollifier_grad ext V E c) = n
    | _ => True
    end ->
    List.length (Virtual.compute_potential_gradient ext o V E F dhat) = n.
Proof.
  intros ext o V E F dhat n Hn Hm.
  destruct o as [c | c | c | c | c];
    cbn [Virtual.compute_potential_gradient Spec.distance_grad] in *;
    unfold VertexVertexConstraint.compute_potential_gradient,
           EdgeVertexConstraint.compute_potential_gradient,
           EdgeEdgeConstraint.compute_potential_gradient,
           FaceVertexConstraint.compute_potential_gradient,
           PlaneVertexConstraint.compute_potential_gradient,
           CollisionConstraint.compute_potential_gradient_common;
    cbv zeta;
    try (rewrite ?scal_vec_length; exact Hn).
  apply zip_with_length.
  - rewrite vec_scal_length. exact Hm.
  - rewrite !scal_vec_length. exact Hn.
Qed.

(** A run of X7: the gradient of the sample vertex-vertex constraint has
    the six entries of the point-point distance gradient. *)
Lemma gradient_has_size_of_distance_gradient_witness :
  List.length
    (Virtual.compute_potential_gradient Sample.collaborators
       (Virtual.VertexVertex Sample.vv) Sample.V Sample.E Sample.F 2)
  = 6%nat.
Proof.
  exact (gradient_has_size_of_distance_gradient
           Sample.collaborators (Virtual.VertexVertex Sample.vv)
           Sample.V Sample.E Sample.F 2 6%nat eq_refl I).
Defined.

Lemma is_matrix_outer (u v : Vector) :
  Shape.is_matrix (List.length u) (List.length v) (outer u v).
Proof.
  unfold Shape.is_matrix, outer. split.
  - apply length_map.
  - apply Forall_map, Forall_forall. intros x _. apply length_map.
Qed.

Lemma is_matrix_scal_mat (r c : nat) (s : double) (M : Matrix) :
  Shape.is_matrix r c M -> Shape.is_matrix r c (scal_mat s M).
Proof.
  unfold Shape.is_matrix, scal_mat. intros [Hr Hc]. split.
  - now rewrite length_map.
  - apply Forall_map. eapply Forall_impl; [| exact Hc].
    cbv beta. intros row Hrow. now rewrite scal_vec_length.
Qed.

Lemma is_matrix_mat_scal (r c : nat) (M : Matrix) (s : double) :
  Shape.is_matrix r c M -> Shape.is_matrix r c (mat_scal M s).
Proof.
  unfold Shape.is_matrix, mat_scal. intros [Hr Hc]. split.
  - now rewrite length_map.
  - apply Forall_map. eapply Forall_impl; [| exact Hc].
    cbv beta. intros row Hrow. now rewrite vec_scal_length.
Qed.

Lemma is_matrix_mat_add (r c : nat) :
  forall M N : Matrix,
    Shape.is_matrix r c M -> Shape.is_matrix r c N ->
    Shape.is_matrix r c (mat_add M N).
Proof.
  unfold Shape.is_matrix, mat_add.
  induction r as [| r IH]; intros [| m M] [| n N] [HrM HcM] [HrN HcN];
    try discriminate; cbn [zip_with List.length] in *.
  - split; [reflexivity | constructor].
  - inversion HcM as [| ? ? Hm HM]; inversion HcN as [| ? ? Hn HN]; subst.
    destruct (IH M N) as [Hlen Hrows]; [split | split |]; try congruence;
      try assumption.
    split; [now f_equal |].
    constructor; [| exact Hrows].
    unfold vec_add. now apply zip_with_length.
Qed.

Lemma is_matrix_scaled_by_multiplicity
    (r c : nat) (o : Virtual.object) (M : Matrix) :
  Shape.is_matrix r c M ->
  Shape.is_matrix r c (Spec.scaled_by_multiplicity o M).
Proof.
  intros HM. destruct o; cbn [Spec.scaled_by_multiplicity];
    try exact HM; now apply is_matrix_scal_mat.
Qed.

(** X8.  The Hessian a constraint returns is square, of the size of the
    distance gradient of its variant, provided the distance Hessian is
    square of that size and the PSD projection keeps the shape of such
    matrices (for EdgeEdge, provided the mollifier derivatives have that
    size too; for the other variants, provided the assertion
    [hess_b >= 0] passes). *)
Theorem hessian_is_square_of_size_of_distance_gradient :
  forall (ext : Collaborators) (o : Virtual.object)
         (V : MatrixXd) (E F : MatrixXi) (dhat : double) (project : bool)
         (n : nat),
    List.length (Spec.distance_grad ext V E F o) = n ->
    Shape.is_matrix n n (Spec.distance_hess ext V E F o) ->
    (forall M, Shape.is_matrix n n M ->
               Shape.is_matrix n n (project_to_psd ext M)) ->
    match o with
    | Virtual.EdgeEdge c =>
        List.length (Spec.mollifier_grad ext V E c) = n
        /\ Shape.is_matrix n n (Spec.mollifier_hess ext V E c)
    | _ =>
        (0 <=? Spec.B'' ext (Virtual.minimum_distance o)
                 (Spec.distance ext V E F o) dhat) = true
    end ->
    exists H,
      Virtual.compute_potential_hessian ext o V E F dhat project = Ok H
      /\ Shape.is_matrix n n H.
Proof.
  intros ext o V E F dhat project n Hg Hh Hpsd Hside.
  assert (Hproj : forall M, Shape.is_matrix n n M ->
                            Shape.is_matrix n n (Spec.projected ext project M)).
  { intros M HM. unfold Spec.projected. destruct project; auto. }
  assert (Houter : forall s,
             Shape.is_matrix n n
               (outer (scal_vec s (Spec.distance_grad ext V E F o))
                      (Spec.distance_grad ext V E F o))).
  { intros s.
    pose proof (is_matrix_outer
                  (scal_vec s (Spec.distance_grad ext V E F o))
                  (Spec.distance_grad ext V E F o)) as Ho.
    rewrite scal_vec_length, Hg in Ho. exact Ho. }
  destruct (Spec.unmollified o) eqn:Hvariant.
  - assert (Hassert :
              (0 <=? Spec.B'' ext (Virtual.minimum_distance o)
                       (Spec.distance ext V E F o) dhat) = true).
    { destruct o; try discriminate Hvariant; exact Hside. }
    rewrite (unmollified_hessian_total ext o V E F dhat project Hvariant),
            Hassert, orb_true_r.
    eexists. split; [reflexivity |].
    apply is_matrix_scaled_by_multiplicity.
    unfold Spec.hessian_composition.
    apply is_matrix_mat_add; [apply Houter |].
    apply Hproj. now apply is_matrix_scal_mat.
  - destruct o as [c | c | c | c | c]; try discriminate Hvariant.
    destruct Hside as [Hmg Hmh].
    eexists. split; [reflexivity |].
    apply (Hproj
             (Spec.mollified_hessian_sum ext
                (EdgeEdgeConstraint.minimum_distance c)
                (Spec.mollifier ext V E c) (Spec.mollifier_grad ext V E c)
                (Spec.mollifier_hess ext V E c)
                (Spec.distance ext V E F (Virtual.EdgeEdge c))
                (Spec.distance_grad ext V E F (Virtual.EdgeEdge c))
                (Spec.distance_hess ext V E F (Virtual.EdgeEdge c)) dhat)).
    unfold Spec.mollified_hessian_sum.
    repeat first [ apply is_matrix_mat_add
                 | apply is_matrix_scal_mat
                 | apply is_matrix_mat_scal
                 | apply Houter
                 | assumption ].
    + pose proof (is_matrix_outer
                    (Spec.distance_grad ext V E F (Virtual.EdgeEdge c))
                    (Spec.mollifier_grad ext V E c)) as Ho.
      rewrite Hg, Hmg in Ho. exact Ho.
    + pose proof (is_matrix_outer
                    (Spec.mollifier_grad ext V E c)
                    (Spec.distance_grad ext V E F (Virtual.EdgeEdge c)))
        as Ho.
      rewrite Hg, Hmg in Ho. exact Ho.
Qed.

Lemma clamp_keeps_shape (r c : nat) (M : Matrix) :
  Shape.is_matrix r c M ->
  Shape.is_matrix r c (Sample.clamp_negative_entries M).
Proof.
  unfold Shape.is_matrix, Sample.clamp_negative_entries. intros [Hr Hc].
  split.
  - now rewrite length_map.
  - apply Forall_map. eapply Forall_impl; [| exact Hc].
    cbv beta. intros row Hrow. now rewrite length_map.
Qed.

(** A run of X8: the projected Hessian of the sample vertex-vertex
    constraint is 6 by 6. *)
Lemma hessian_is_square_of_size_of_distance_gradient_witness :
  exists H,
    Virtual.compute_potential_hessian Sample.collaborators
      (Virtual.VertexVertex Sample.vv) Sample.V Sample.E Sample.F 2 true
    = Ok H
    /\ Shape.is_matrix 6 6 H.
Proof.
  apply (hessian_is_square_of_size_of_distance_gradient
           Sample.collaborators (Virtual.VertexVertex Sample.vv)
           Sample.V Sample.E Sample.F 2 true 6%nat).
  - reflexivity.
  - split; [reflexivity | repeat constructor].
  - intros M HM. exact (clamp_keeps_shape 6 6 M HM).
  - vm_compute. reflexivity.
Defined.

End VariantsFurther.

(* ================================================================== *)
(** * Locality *)

Section Locality.
Local Open Scope float_scope.

(** X9.  A constraint reads the vertex matrix only at the rows of its
    stencil, and the connectivity only at its own edge or face: two
    meshes that agree there give the same potential, gradient and
    Hessian.  In particular VertexVertex and PlaneVertex ignore [E] and
    [F], EdgeVertex and EdgeEdge ignore [F], and FaceVertex ignores
    [E]. *)
Theorem constraint_reads_only_its_stencil :
  forall (ext : Collaborators) (o : Virtual.object)
         (V V' : MatrixXd) (E F E' F' : MatrixXi)
         (dhat : double) (project : bool),
    Shape.same_connectivity_read E F E' F' o ->
    (forall i, In i (Shape.stencil E F o) -> row V i = row V' i) ->
    Virtual.compute_potential ext o V E F dhat
    = Virtual.compute_potential ext o V' E' F' dhat
    /\ Virtual.compute_potential_gradient ext o V E F dhat
       = Virtual.compute_potential_gradient ext o V' E' F' dhat
    /\ Virtual.compute_potential_hessian ext o V E F dhat project
       = Virtual.compute_potential_hessian ext o V' E' F' dhat project.
Proof.
  intros ext o V V' E F E' F' dhat project Hconn Hrows.
  destruct o as [c | c | c | c | c];
    cbn [Shape.stencil Shape.same_connectivity_read] in *.
  - pose proof (Hrows _ (or_introl eq_refl)) as R0.
    pose proof (Hrows _ (or_intror (or_introl eq_refl))) as R1.
    cbn [Virtual.compute_potential Virtual.compute_potential_gradient
         Virtual.compute_potential_hessian].
    unfold VertexVertexConstraint.compute_potential,
           VertexVertexConstraint.compute_potential_gradient,
           VertexVertexConstraint.compute_potential_hessian.
    cbv zeta. rewrite R0, R1. repeat split.
  - destruct Hconn as [C0 C1].
    pose proof (Hrows _ (or_introl eq_refl)) as R0.
    pose proof (Hrows _ (or_intror (or_introl eq_refl))) as R1.
    pose proof (Hrows _ (or_intror (or_intror (or_introl eq_refl)))) as R2.
    cbn [Virtual.compute_potential Virtual.compute_potential_gradient
         Virtual.compute_potential_hessian].
    unfold EdgeVertexConstraint.compute_potential,
           EdgeVertexConstraint.compute_potential_gradient,
           EdgeVertexConstraint.compute_potential_hessian.
    cbv zeta. rewrite R0, R1, R2, C0, C1. repeat split.
  - destruct Hconn as (C0 & C1 & C2 & C3).
    pose proof (Hrows _ (or_introl eq_refl)) as R0.
    pose proof (Hrows _ (or_intror (or_introl eq_refl))) as R1.
    pose proof (Hrows _ (or_intror (or_intror (or_introl eq_refl)))) as R2.
    pose proof (Hrows _ (or_intror (or_intror (or_intror
                           (or_introl eq_refl))))) as R3.
    cbn [Virtual.compute_potential Virtual.compute_potential_gradient
         Virtual.compute_potential_hessian].
    unfold EdgeEdgeConstraint.compute_potential,
           EdgeEdgeConstraint.compute_potential_gradient,
           EdgeEdgeConstraint.compute_potential_hessian.
    cbv zeta. rewrite R0, R1, R2, R3, C0, C1, C2, C3. repeat split.
  - destruct Hconn as (C0 & C1 & C2).
    pose proof (Hrows _ (or_introl eq_refl)) as R0.
    pose proof (Hrows _ (or_intror (or_introl eq_refl))) as R1.
    pose proof (Hrows _ (or_intror (or_intror (or_introl eq_refl)))) as R2.
    pose proof (Hrows _ (or_intror (or_intror (or_intror
                           (or_introl eq_refl))))) as R3.
    cbn [Virtual.compute_potential Virtual.compute_potential_gradient
         Virtual.compute_potential_hessian].
    unfold FaceVertexConstraint.compute_potential,
           FaceVertexConstraint.compute_potential_gradient,
           FaceVertexConstraint.compute_potential_hessian.
    cbv zeta. rewrite R0, R1, R2, R3, C0, C1, C2. repeat split.
  - pose proof (Hrows _ (or_introl eq_refl)) as R0.
    cbn [Virtual.compute_potential Virtual.compute_potential_gradient
         Virtual.compute_potential_hessian].
    unfold PlaneVertexConstraint.compute_potential,
           PlaneVertexConstraint.compute_potential_gradient,
           PlaneVertexConstraint.compute_potential_hessian.
    cbv zeta. rewrite R0. repeat split.
Qed.

(** A run of X9: the sample vertex-vertex constraint gives the same
    potential on the sample mesh and on that mesh with a third vertex
    and other edges and faces. *)
Lemma constraint_reads_only_its_stencil_witness :
  Virtual.compute_potential Sample.collaborators
    (Virtual.VertexVertex Sample.vv) Sample.V Sample.E Sample.F 2
  = Virtual.compute_potential Sample.collaborators
      (Virtual.VertexVertex Sample.vv)
      (Sample.V ++ [[5; 5; 5]]) [] [[0; 1; 2]%Z] 2.
Proof.
  refine (proj1 (constraint_reads_only_its_stencil
                   Sample.collaborators (Virtual.VertexVertex Sample.vv)
                   Sample.V (Sample.V ++ [[5; 5; 5]])
                   Sample.E Sample.F [] [[0; 1; 2]%Z] 2 false I _)).
  intros i [<- | [<- | []]]; reflexivity.
Defined.

End Locality.

(* ================================================================== *)
(** * Further properties of the smooth friction mollifier functions *)

Section FrictionFurther.
Local Open Scope Q_scope.
Import Friction.

Lemma outside_at_bound (s epsv : Q) :
  epsv <= Qabs s -> outside s epsv = true.
Proof. intros H. unfold outside. now apply Qle_bool_iff. Qed.

(** X12.  The two branches of each documented formula meet at
    [s = epsv]: there the outside branch is taken and returns [epsv],
    [1 / epsv] and [-1 / epsv^3], which are the values of the three
    inside closed forms at [s = epsv]; and for [|s| < epsv] the first two
    functions return their inside closed forms. *)
Theorem friction_branches_meet_at_epsv :
  forall epsv : Q,
    0 < epsv ->
    smooth_friction_f0 epsv epsv = Some epsv
    /\ FrictionForms.f0_inside epsv epsv == epsv
    /\ smooth_friction_f1_over_x epsv epsv = Some (1 / epsv)
    /\ FrictionForms.f1_over_x_inside epsv epsv == 1 / epsv
    /\ smooth_friction_f2_x_minus_f1_over_x3 epsv epsv
       = Some (- (1 / (epsv * epsv * epsv)))
    /\ FrictionForms.f2_x_minus_f1_over_x3_inside epsv epsv
       == - (1 / (epsv * epsv * epsv))
    /\ (forall s : Q,
          Qabs s < epsv ->
          smooth_friction_f0 s epsv = Some (FrictionForms.f0_inside s epsv)
          /\ smooth_friction_f1_over_x s epsv
             = Some (FrictionForms.f1_over_x_inside s epsv)).
Proof.
  intros epsv Hpos.
  assert (Heps : ~ epsv == 0) by (intros H; lra).
  assert (Habs : epsv <= Qabs epsv).
  { rewrite Qabs_pos by lra. lra. }
  destruct (friction_outside_branch_divisions epsv epsv Hpos Habs)
    as (H0 & H1 & H2).
  unfold FrictionForms.f0_inside, FrictionForms.f1_over_x_inside,
         FrictionForms.f2_x_minus_f1_over_x3_inside.
  split; [exact H0 |].
  split; [field; exact Heps |].
  split; [exact H1 |].
  split; [field; exact Heps |].
  split; [exact H2 |].
  split; [field; exact Heps |].
  intros s Hin.
  pose proof (square_nonzero epsv Hpos) as Hsq.
  assert (H3sq : ~ 3 * (epsv * epsv) == 0) by (intros H; lra).
  assert (H3 : ~ 3 == 0) by (intros H; lra).
  unfold smooth_friction_f0, smooth_friction_f1_over_x.
  rewrite (inside_branch s epsv Hin).
  rewrite !(checked_div_nonzero _ _ H3sq), !(checked_div_nonzero _ _ Heps),
          !(checked_div_nonzero _ _ H3), !(checked_div_nonzero _ _ Hsq).
  split; reflexivity.
Qed.

(** A run of X12 with [epsv = 2]. *)
Lemma friction_branches_meet_at_epsv_witness :
  smooth_friction_f0 2 2 = Some 2
  /\ FrictionForms.f0_inside 2 2 == 2.
Proof.
  assert (Hpos : 0 < 2) by reflexivity.
  destruct (friction_branches_meet_at_epsv 2 Hpos) as (H0 & H0' & _).
  split; [exact H0 | exact H0'].
Defined.

(** X13.  At the lower boundary the branches of [f0] do not meet: at
    [s = -epsv] the outside branch returns [-epsv], a negative value,
    while the inside closed form there is [5 epsv / 3]; so [f0] as
    documented is neither even nor continuous on negative arguments. *)
Theorem friction_f0_jumps_at_minus_epsv :
  forall epsv : Q,
    0 < epsv ->
    smooth_friction_f0 (- epsv) epsv = Some (- epsv)
    /\ FrictionForms.f0_inside (- epsv) epsv == (5 # 3) * epsv
    /\ ~ FrictionForms.f0_inside (- epsv) epsv == - epsv
    /\ ~ (exists v w,
            smooth_friction_f0 (- epsv) epsv = Some v
            /\ smooth_friction_f0 epsv epsv = Some w
            /\ v == w).
Proof.
  intros epsv Hpos.
  assert (Heps : ~ epsv == 0) by (intros H; lra).
  assert (Habs : epsv <= Qabs (- epsv)).
  { rewrite Qabs_opp, Qabs_pos by lra. lra. }
  assert (Habs' : epsv <= Qabs epsv).
  { rewrite Qabs_pos by lra. lra. }
  assert (Hinside : FrictionForms.f0_inside (- epsv) epsv == (5 # 3) * epsv).
  { unfold FrictionForms.f0_inside. field. exact Heps. }
  split.
  { unfold smooth_friction_f0. now rewrite (outside_at_bound _ _ Habs). }
  split; [exact Hinside |].
  split.
  { rewrite Hinside. intros H. lra. }
  intros (v & w & Hv & Hw & Hvw).
  unfold smooth_friction_f0 in Hv, Hw.
  rewrite (outside_at_bound _ _ Habs) in Hv.
  rewrite (outside_at_bound _ _ Habs') in Hw.
  injection Hv as <-. injection Hw as <-. lra.
Qed.

(** A run of X13 with [epsv = 3]: [f0(-3) = -3], the inside form at [-3]
    is [5]. *)
Lemma friction_f0_jumps_at_minus_epsv_witness :
  smooth_friction_f0 (- (3)) 3 = Some (- (3))
  /\ FrictionForms.f0_inside (- (3)) 3 == (5 # 3) * 3.
Proof.
  assert (Hpos : 0 < 3) by reflexivity.
  destruct (friction_f0_jumps_at_minus_epsv 3 Hpos) as (H0 & H1 & _).
  split; [exact H0 | exact H1].
Defined.

End FrictionFurther.

(* ================================================================== *)
(** * The edge-edge derivatives, entry by entry *)

Section EdgeEdgeEntries.
Local Open Scope float_scope.

Lemma nth_map_in_range {A B : Type} (f : A -> B) (l : list A)
      (i : nat) (d : A) (d' : B) :
  (i < List.length l)%nat -> nth i (map f l) d' = f (nth i l d).
Proof.
  intros Hi. rewrite (nth_indep _ d' (f d)) by (rewrite length_map; exact Hi).
  apply map_nth.
Qed.

Lemma nth_zip_with {A B C : Type} (f : A -> B -> C) :
  forall (u : list A) (v : list B) (i : nat) (d : C) (du : A) (dv : B),
    (i < List.length u)%nat -> (i < List.length v)%nat ->
    nth i (zip_with f u v) d = f (nth i u du) (nth i v dv).
Proof.
  induction u as [| a u IH]; intros [| b v] i d du dv Hu Hv;
    cbn [List.length] in *; try lia.
  destruct i as [| i]; cbn [zip_with nth].
  - reflexivity.
  - apply IH; lia.
Qed.

Lemma row_length (r c : nat) (M : Matrix) (i : nat) :
  Shape.is_matrix r c M -> (i < r)%nat -> List.length (nth i M []) = c.
Proof.
  intros [Hr Hc] Hi. rewrite Forall_forall in Hc. apply Hc.
  apply nth_In. lia.
Qed.

Lemma coordinate_scal_vec (s : double) (v : Vector) (i : nat) :
  (i < List.length v)%nat ->
  Entry.coordinate (scal_vec s v) i = s * Entry.coordinate v i.
Proof.
  intros Hi. unfold Entry.coordinate, scal_vec.
  now rewrite (nth_map_in_range _ v i 0 0 Hi).
Qed.

Lemma coordinate_vec_scal (v : Vector) (s : double) (i : nat) :
  (i < List.length v)%nat ->
  Entry.coordinate (vec_scal v s) i = Entry.coordinate v i * s.
Proof.
  intros Hi. unfold Entry.coordinate, vec_scal.
  now rewrite (nth_map_in_range _ v i 0 0 Hi).
Qed.

Lemma coordinate_vec_add (u v : Vector) (i : nat) :
  (i < List.length u)%nat -> (i < List.length v)%nat ->
  Entry.coordinate (vec_add u v) i
  = Entry.coordinate u i + Entry.coordinate v i.
Proof.
  intros Hu Hv. unfold Entry.coordinate, vec_add.
  apply nth_zip_with; assumption.
Qed.

Lemma entry_outer (u v : Vector) (i j : nat) :
  (i < List.length u)%nat -> (j < List.length v)%nat ->
  Entry.entry (outer u v) i j
  = Entry.coordinate u i * Entry.coordinate v j.
Proof.
  intros Hi Hj. unfold Entry.entry, Entry.coordinate, outer.
  rewrite (nth_map_in_range _ u i 0 [] Hi).
  now rewrite (nth_map_in_range _ v j 0 0 Hj).
Qed.

Lemma entry_scal_mat (n : nat) (s : double) (M : Matrix) (i j : nat) :
  Shape.is_matrix n n M -> (i < n)%nat -> (j < n)%nat ->
  Entry.entry (scal_mat s M) i j = s * Entry.entry M i j.
Proof.
  intros HM Hi Hj.
  assert (Hrow : nth i (map (scal_vec s) M) [] = scal_vec s (nth i M []))
    by (apply nth_map_in_range; destruct HM; unfold Vector, Matrix in *; lia).
  pose proof (coordinate_scal_vec s (nth i M []) j) as Hentry.
  rewrite (row_length n n M i HM Hi) in Hentry.
  unfold Entry.entry, Entry.coordinate, scal_mat, Vector in *.
  rewrite Hrow. apply Hentry. exact Hj.
Qed.

Lemma entry_mat_scal (n : nat) (M : Matrix) (s : double) (i j : nat) :
  Shape.is_matrix n n M -> (i < n)%nat -> (j < n)%nat ->
  Entry.entry (mat_scal M s) i j = Entry.entry M i j * s.
Proof.
  intros HM Hi Hj.
  assert (Hrow : nth i (map (fun r => vec_scal r s) M) []
                 = vec_scal (nth i M []) s)
    by (apply (nth_map_in_range (fun r => vec_scal r s));
        destruct HM; unfold Vector, Matrix in *; lia).
  pose proof (coordinate_vec_scal (nth i M []) s j) as Hentry.
  rewrite (row_length n n M i HM Hi) in Hentry.
  unfold Entry.entry, Entry.coordinate, mat_scal, Vector in *.
  rewrite Hrow. apply Hentry. exact Hj.
Qed.

Lemma entry_mat_add (n : nat) (M N : Matrix) (i j : nat) :
  Shape.is_matrix n n M -> Shape.is_matrix n n N ->
  (i < n)%nat -> (j < n)%nat ->
  Entry.entry (mat_add M N) i j = Entry.entry M i j + Entry.entry N i j.
Proof.
  intros HM HN Hi Hj.
  assert (Hrow : nth i (zip_with vec_add M N) []
                 = vec_add (nth i M []) (nth i N []))
    by (apply nth_zip_with; destruct HM, HN; unfold Vector, Matrix in *; lia).
  pose proof (coordinate_vec_add (nth i M []) (nth i N []) j) as Hentry.
  rewrite (row_length n n M i HM Hi), (row_length n n N i HN Hi) in Hentry.
  unfold Entry.entry, Entry.coordinate, mat_add, Vector in *.
  rewrite Hrow. apply Hentry; exact Hj.
Qed.

Lemma is_matrix_outer_square (n : nat) (u v : Vector) :
  List.length u = n -> List.length v = n ->
  Shape.is_matrix n n (outer u v).
Proof.
  intros Hu Hv. pose proof (is_matrix_outer u v) as H.
  now rewrite Hu, Hv in H.
Qed.

(** C3.  The EdgeEdge gradient has both product-rule terms: when the
    distance gradient and the mollifier gradient have [n] entries, the
    result has [n] entries and its entry [i] is
    [mollifier_grad_i * b + mollifier * (grad_b * distance_grad_i)],
    where [b] and [grad_b] are the barrier and its derivative at
    [(d - minimum_distance^2, 2 minimum_distance dhat + dhat^2)] and [d]
    and [distance_grad] are evaluated with the distance type the
    classifier returns for the current end points of the two edges. *)
Theorem edge_edge_gradient_has_both_terms :
  forall (ext : Collaborators) (c : EdgeEdgeConstraint.t)
         (V : MatrixXd) (E F : MatrixXi) (dhat : double) (n : nat),
    let md := EdgeEdgeConstraint.minimum_distance c in
    let ea0 := row V (coeff E (EdgeEdgeConstraint.edge0_index c) 0) in
    let ea1 := row V (coeff E (EdgeEdgeConstraint.edge0_index c) 1) in
    let eb0 := row V (coeff E (EdgeEdgeConstraint.edge1_index c) 0) in
    let eb1 := row V (coeff E (EdgeEdgeConstraint.edge1_index c) 1) in
    let dtype := edge_edge_distance_type ext ea0 ea1 eb0 eb1 in
    let d := edge_edge_distance ext ea0 ea1 eb0 eb1 dtype in
    let distance_grad :=
      edge_edge_distance_gradient ext ea0 ea1 eb0 eb1 dtype in
    let mollifier :=
      edge_edge_mollifier ext ea0 ea1 eb0 eb1 (EdgeEdgeConstraint.eps_x c) in
    let mollifier_grad :=
      edge_edge_mollifier_gradient ext ea0 ea1 eb0 eb1
        (EdgeEdgeConstraint.eps_x c) in
    let b :=
      barrier ext (d - md * md) (2 * md * dhat + dhat * dhat) in
    let grad_b :=
      barrier_gradient ext (d - md * md) (2 * md * dhat + dhat * dhat) in
    List.length distance_grad = n ->
    List.length mollifier_grad = n ->
    List.length (EdgeEdgeConstraint.compute_potential_gradient
                   ext c V E F dhat) = n
    /\ forall i : nat,
        (i < n)%nat ->
        Entry.coordinate
          (EdgeEdgeConstraint.compute_potential_gradient ext c V E F dhat) i
        = Entry.coordinate mollifier_grad i * b
          + mollifier * (grad_b * Entry.coordinate distance_grad i).
Proof.
  intros ext c V E F dhat n md ea0 ea1 eb0 eb1 dtype d distance_grad
         mollifier mollifier_grad b grad_b Hdg Hmg.
  destruct (edge_edge_gradient_unfolded ext c V E F dhat) as [Hcode _].
  cbv zeta in Hcode. rewrite Hcode. clear Hcode.
  fold md ea0 ea1 eb0 eb1. fold dtype. fold d distance_grad.
  fold mollifier mollifier_grad.
  change (Spec.B ext md d dhat) with b.
  change (Spec.B' ext md d dhat) with grad_b.
  split.
  - apply zip_with_length.
    + now rewrite vec_scal_length.
    + now rewrite !scal_vec_length.
  - intros i Hi.
    rewrite coordinate_vec_add
      by (rewrite ?vec_scal_length, ?scal_vec_length; lia).
    rewrite coordinate_vec_scal by lia.
    rewrite coordinate_scal_vec by (rewrite scal_vec_length; lia).
    rewrite coordinate_scal_vec by lia.
    reflexivity.
Qed.

(** A run of C3 on the line: [b = 36], [grad_b = -15], mollifier [1/2],
    mollifier gradient [(-1/2, 1/2, -1/4, 1/4)] and distance gradient
    [(0, -4, 4, 0)] give the gradient [(-18, 48, -39, 9)]; its entry 1 is
    [1/2 * 36 + 1/2 * (-15 * -4)]. *)
Lemma edge_edge_gradient_has_both_terms_witness :
  EdgeEdgeConstraint.compute_potential_gradient
    Line.collaborators Line.ee Line.V Line.E Line.F 4
  = [-18; 48; -39; 9]
  /\ List.length (EdgeEdgeConstraint.compute_potential_gradient
                   Line.collaborators Line.ee Line.V Line.E Line.F 4)
     = 4%nat
  /\ Entry.coordinate
       (EdgeEdgeConstraint.compute_potential_gradient
          Line.collaborators Line.ee Line.V Line.E Line.F 4) 1
     = 0.5 * 36 + 0.5 * (-15 * -4).
Proof.
  destruct (edge_edge_gradient_has_both_terms
              Line.collaborators Line.ee Line.V Line.E Line.F 4 4%nat
              eq_refl eq_refl) as [Hlen Hentry].
  split; [vm_compute; reflexivity |].
  split; [exact Hlen |].
  refine (eq_trans (Hentry 1%nat _) _).
  - repeat constructor.
  - vm_compute. reflexivity.
Defined.

(** Shapes of sums, multiples and outer products of square matrices, and
    the bounds of their entries. *)
Ltac square_shape :=
  repeat first [ assumption
               | lia
               | apply is_matrix_mat_add
               | apply is_matrix_scal_mat
               | apply is_matrix_mat_scal
               | apply is_matrix_outer_square
               | rewrite scal_vec_length ].

(** C2.  The EdgeEdge Hessian is the full product-rule sum: when the
    distance and mollifier gradients have [n] entries and their Hessians
    are [n] by [n], there is an [n] by [n] matrix [sum] whose entry
    [(i, j)] is
    [mollifier_hess_ij * b
     + grad_b * (distance_grad_i * mollifier_grad_j
                 + mollifier_grad_i * distance_grad_j)
     + mollifier * (hess_b * distance_grad_i * distance_grad_j
                    + grad_b * distance_hess_ij)],
    such that without [project_hessian_to_psd] the function returns
    [sum], and with it the function returns the PSD projection of [sum],
    that is, of the entire summed Hessian.  The barrier values [b],
    [grad_b], [hess_b] are taken at
    [(d - minimum_distance^2, 2 minimum_distance dhat + dhat^2)], and the
    distance derivatives with the classifier's distance type. *)
Theorem edge_edge_hessian_projects_the_whole_sum :
  forall (ext : Collaborators) (c : EdgeEdgeConstraint.t)
         (V : MatrixXd) (E F : MatrixXi) (dhat : double) (n : nat),
    let md := EdgeEdgeConstraint.minimum_distance c in
    let ea0 := row V (coeff E (EdgeEdgeConstraint.edge0_index c) 0) in
    let ea1 := row V (coeff E (EdgeEdgeConstraint.edge0_index c) 1) in
    let eb0 := row V (coeff E (EdgeEdgeConstraint.edge1_index c) 0) in
    let eb1 := row V (coeff E (EdgeEdgeConstraint.edge1_index c) 1) in
    let dtype := edge_edge_distance_type ext ea0 ea1 eb0 eb1 in
    let d := edge_edge_distance ext ea0 ea1 eb0 eb1 dtype in
    let distance_grad :=
      edge_edge_distance_gradient ext ea0 ea1 eb0 eb1 dtype in
    let distance_hess :=
      edge_edge_distance_hessian ext ea0 ea1 eb0 eb1 dtype in
    let mollifier :=
      edge_edge_mollifier ext ea0 ea1 eb0 eb1 (EdgeEdgeConstraint.eps_x c) in
    let mollifier_grad :=
      edge_edge_mollifier_gradient ext ea0 ea1 eb0 eb1
        (EdgeEdgeConstraint.eps_x c) in
    let mollifier_hess :=
      edge_edge_mollifier_hessian ext ea0 ea1 eb0 eb1
        (EdgeEdgeConstraint.eps_x c) in
    let b :=
      barrier ext (d - md * md) (2 * md * dhat + dhat * dhat) in
    let grad_b :=
      barrier_gradient ext (d - md * md) (2 * md * dhat + dhat * dhat) in
    let hess_b :=
      barrier_hessian ext (d - md * md) (2 * md * dhat + dhat * dhat) in
    List.length distance_grad = n ->
    List.length mollifier_grad = n ->
    Shape.is_matrix n n distance_hess ->
    Shape.is_matrix n n mollifier_hess ->
    exists sum : Matrix,
      Shape.is_matrix n n sum
      /\ (forall i j : nat,
            (i < n)%nat -> (j < n)%nat ->
            Entry.entry sum i j
            = Entry.entry mollifier_hess i j * b
              + grad_b
                * (Entry.coordinate distance_grad i
                   * Entry.coordinate mollifier_grad j
                   + Entry.coordinate mollifier_grad i
                     * Entry.coordinate distance_grad j)
              + mollifier
                * (hess_b * Entry.coordinate distance_grad i
                   * Entry.coordinate distance_grad j
                   + grad_b * Entry.entry distance_hess i j))
      /\ EdgeEdgeConstraint.compute_potential_hessian ext c V E F dhat false
         = Ok sum
      /\ EdgeEdgeConstraint.compute_potential_hessian ext c V E F dhat true
         = Ok (project_to_psd ext sum).
Proof.
  intros ext c V E F dhat n md ea0 ea1 eb0 eb1 dtype d distance_grad
         distance_hess mollifier mollifier_grad mollifier_hess
         b grad_b hess_b Hdg Hmg Hdh Hmh.
  exists (Spec.mollified_hessian_sum ext md mollifier mollifier_grad
            mollifier_hess d distance_grad distance_hess dhat).
  destruct (edge_edge_hessian_unfolded ext c V E F dhat)
    as (Htrue & Hfalse & _).
  split; [| split; [| split; [exact Hfalse | exact Htrue]]].
  - unfold Spec.mollified_hessian_sum. square_shape.
  - intros i j Hi Hj.
    unfold Spec.mollified_hessian_sum.
    change (Spec.B ext md d dhat) with b.
    change (Spec.B' ext md d dhat) with grad_b.
    change (Spec.B'' ext md d dhat) with hess_b.
    rewrite !(entry_mat_add n) by square_shape.
    rewrite (entry_mat_scal n) by square_shape.
    rewrite !(entry_scal_mat n) by square_shape.
    rewrite !(entry_mat_add n) by square_shape.
    rewrite (entry_scal_mat n) by square_shape.
    rewrite !entry_outer by (rewrite ?scal_vec_length; lia).
    rewrite coordinate_scal_vec by lia.
    reflexivity.
Qed.

(** A run of C2 on the line, with [b = 36], [grad_b = -15],
    [hess_b = 8] and mollifier [1/2]: the sum has negative entries, the
    function returns it as it is without the flag and its projection,
    here the clamp of the whole matrix, with the flag; entry [(1, 1)] is
    [0 * 36 + -15 * (-4 * 1/2 + 1/2 * -4) + 1/2 * (8 * -4 * -4 + -15 * 2)]. *)
Lemma edge_edge_hessian_projects_the_whole_sum_witness :
  EdgeEdgeConstraint.compute_potential_hessian
    Line.collaborators Line.ee Line.V Line.E Line.F 4 false
  = Ok [[0; -30; 39; -9]; [-30; 109; -103; 24];
        [39; -103; 79; -15]; [-9; 24; -15; 0]]
  /\ EdgeEdgeConstraint.compute_potential_hessian
       Line.collaborators Line.ee Line.V Line.E Line.F 4 true
     = Ok [[0; 0; 39; 0]; [0; 109; 0; 24]; [39; 0; 79; 0]; [0; 24; 0; 0]]
  /\ exists sum : Matrix,
      EdgeEdgeConstraint.compute_potential_hessian
        Line.collaborators Line.ee Line.V Line.E Line.F 4 true
      = Ok (Sample.clamp_negative_entries sum)
      /\ Entry.entry sum 1 1
         = 0 * 36 + -15 * (-4 * 0.5 + 0.5 * -4)
           + 0.5 * (8 * -4 * -4 + -15 * 2).
Proof.
  split; [vm_compute; reflexivity |].
  split; [vm_compute; reflexivity |].
  destruct (edge_edge_hessian_projects_the_whole_sum
              Line.collaborators Line.ee Line.V Line.E Line.F 4 4%nat
              eq_refl eq_refl)
    as (sum & _ & Hentry & _ & Htrue).
  - split; [reflexivity | repeat constructor].
  - split; [reflexivity | repeat constructor].
  - exists sum. split; [exact Htrue |].
    refine (eq_trans (Hentry 1%nat 1%nat _ _) _).
    + repeat constructor.
    + repeat constructor.
    + vm_compute. reflexivity.
Defined.

End EdgeEdgeEntries.
